(** * Silk lease controller and veth manager: model and properties

    The lease controller (package [lib], [daemon/lib/lease_controller.go])
    is embedded function by function.  Its three collaborators are Go
    interfaces; they are type classes over an abstract world [W] that
    every call may read and change.  Each call made by the controller is
    also recorded, with its arguments and its results, in a call history,
    in the way the counterfeiter fakes of the repository record calls.

    Of the veth manager (package [veth]) the sources hold the tests only;
    the manager is modelled from the specification, over a small model
    of the kernel's links and addresses. *)

From stdpp Require Import base numbers list strings gmap.
From Stdlib Require Import ZArith String Ascii.

Local Open Scope string_scope.
Local Open Scope list_scope.
Local Open Scope Z_scope.

(** Go's [error]: [None] is [nil], [Some msg] is an error whose [Error()]
    text is [msg]. *)
Definition error : Type := option string.

(** The [%s] verb of package [fmt] applied to an [error] value. *)
Definition fmt_s (err : error) : string :=
  match err with
  | Some msg => msg
  | None => "%!s(<nil>)"
  end.

(** [fmt.Errorf(prefix + "%s", err)]: always a non-nil error. *)
Definition Errorf (prefix : string) (err : error) : error :=
  Some (prefix +:+ fmt_s err).

(** ** Package [net] of the Go library, as far as the controller uses it *)
Module net.

(** [net.IP] and [net.HardwareAddr] are byte slices. *)
Definition IP : Type := list Z.
Definition HardwareAddr : Type := list Z.

Definition hexDigit (n : Z) : ascii :=
  match String.get (Z.to_nat n) "0123456789abcdef" with
  | Some c => c
  | None => "?"%char
  end.

(** [HardwareAddr.String]: two hex digits per byte, colons in between. *)
Fixpoint hwString (first : bool) (a : HardwareAddr) : string :=
  match a with
  | [] => ""
  | b :: rest =>
      let digits :=
        String (hexDigit (Z.shiftr b 4))
          (String (hexDigit (Z.land b 15)) (hwString false rest)) in
      if first then digits else String ":"%char digits
  end.

Definition HardwareAddr_String (a : HardwareAddr) : string := hwString true a.

(** [net.IPNet]: an address and the length of its prefix. *)
Record IPNet : Type := { IPNet_IP : IP; IPNet_Ones : Z }.

#[global] Instance IPNet_eq_dec : EqDecision IPNet.
Proof. solve_decision. Defined.

(** [IP.To4]: the four-byte form of an IPv4 address, also when it is
    stored in sixteen bytes; nothing for any other address. *)
Definition To4 (ip : IP) : option IP :=
  match ip with
  | [_; _; _; _] => Some ip
  | [0; 0; 0; 0; 0; 0; 0; 0; 0; 0; 255; 255; a; b; c; d] => Some [a; b; c; d]
  | _ => None
  end.

End net.

(** ** Package [controller]: the lease record *)
Module controller.

Record Lease : Type := {
  UnderlayIP : string;
  OverlaySubnet : string;
  OverlayHardwareAddr : string
}.

#[global] Instance Lease_eq_dec : EqDecision Lease.
Proof. solve_decision. Defined.

End controller.

(** ** Package [config]: the configuration, as far as the controller reads it

    The four fields are the ones [NewLeaseController] reads; the type of
    [Database] belongs to the database helper library and stays a
    parameter. *)
Module config.

Record Config (DBConfig : Type) : Type := {
  Database : DBConfig;
  SubnetRange : string;
  SubnetMask : Z;
  UnderlayIP : string
}.

Arguments Database {DBConfig} _.
Arguments SubnetRange {DBConfig} _.
Arguments SubnetMask {DBConfig} _.
Arguments UnderlayIP {DBConfig} _.

End config.

(** ** Package [lib]: the lease controller *)
Module lib.

(** Values logged through [lager.Data]. *)
Inductive LogValue : Type :=
| LInt (n : Z)
| LString (s : string)
| LLease (l : option controller.Lease).

(** One entry of the call history: the call, its arguments, its results. *)
Inductive Call : Type :=
| CallMigrate (n : Z) (err : error)
| CallAddEntry (l : controller.Lease) (err : error)
| CallDeleteEntry (underlayIP : string) (err : error)
| CallLeaseForUnderlayIP (underlayIP : string)
    (l : option controller.Lease) (err : error)
| CallAll (ls : list controller.Lease) (err : error)
| CallGetAvailable (taken : list string) (subnet : string) (err : error)
| CallGenerateForVTEP (ip : net.IP) (hw : net.HardwareAddr) (err : error)
| CallSleep (d : Z)
| CallLogInfo (msg : string) (data : list (string * LogValue)).

(** The interfaces of the source.  A method takes the world and returns
    its Go results together with the world after the call.  A lease
    passed by pointer is passed by value: handlers do not write through
    the pointer. *)
Class databaseHandler (W : Type) : Type := {
  Migrate : W → (Z * error) * W;
  AddEntry : controller.Lease → W → error * W;
  DeleteEntry : string → W → error * W;
  LeaseForUnderlayIP : string → W → (option controller.Lease * error) * W;
  All : W → (list controller.Lease * error) * W
}.

Class cidrPool (W : Type) : Type := {
  GetAvailable : list string → W → (string * error) * W
}.

Class hardwareAddressGenerator (W : Type) : Type := {
  GenerateForVTEP : net.IP → W → (net.HardwareAddr * error) * W
}.

(** The configuration fields of [LeaseController].  The interface-valued
    fields are the class instances in scope; [Logger] is the call
    history.  Go's [int] is 64 bits wide: the loop counters below stay
    under the configured bounds, so they never wrap and [Z] is exact. *)
Record LeaseController : Type := {
  MaxMigrationAttempts : Z;
  MigrationAttemptSleepDuration : Z;
  AcquireSubnetLeaseAttempts : Z;
  UnderlayIP : string
}.

Section Controller.
Context {W : Type}.
Context `{DB : !databaseHandler W} `{Pool : !cidrPool W}
        `{Gen : !hardwareAddressGenerator W}.

(** [net.ParseCIDR], of which the controller keeps the address and the
    error. *)
Variable ParseCIDR : string → net.IP * error.

(** A computation reads the world and returns a value, the world
    after it, and the calls it made, oldest first. *)
Definition Prog (A : Type) : Type := W → A * W * list Call.

#[local] Instance prog_ret : MRet Prog := λ A a w, (a, w, []).
#[local] Instance prog_bind : MBind Prog := λ A B f m w,
  let '(a, w1, t1) := m w in
  let '(b, w2, t2) := f a w1 in
  (b, w2, t1 ++ t2).

Definition callMigrate : Prog (Z * error) := λ w,
  let '(r, w') := Migrate w in (r, w', [CallMigrate r.1 r.2]).
Definition callAddEntry (l : controller.Lease) : Prog error := λ w,
  let '(r, w') := AddEntry l w in (r, w', [CallAddEntry l r]).
Definition callDeleteEntry (ip : string) : Prog error := λ w,
  let '(r, w') := DeleteEntry ip w in (r, w', [CallDeleteEntry ip r]).
Definition callLeaseForUnderlayIP (ip : string)
  : Prog (option controller.Lease * error) := λ w,
  let '(r, w') := LeaseForUnderlayIP ip w in
  (r, w', [CallLeaseForUnderlayIP ip r.1 r.2]).
Definition callAll : Prog (list controller.Lease * error) := λ w,
  let '(r, w') := All w in (r, w', [CallAll r.1 r.2]).
Definition callGetAvailable (taken : list string) : Prog (string * error) :=
  λ w, let '(r, w') := GetAvailable taken w in
       (r, w', [CallGetAvailable taken r.1 r.2]).
Definition callGenerateForVTEP (ip : net.IP)
  : Prog (net.HardwareAddr * error) := λ w,
  let '(r, w') := GenerateForVTEP ip w in
  (r, w', [CallGenerateForVTEP ip r.1 r.2]).
Definition sleep (d : Z) : Prog unit := λ w, (tt, w, [CallSleep d]).
Definition logInfo (msg : string) (data : list (string * LogValue))
  : Prog unit := λ w, (tt, w, [CallLogInfo msg data]).

Variable c : LeaseController.

(** The loop of [TryMigrations].  [fuel] only makes the recursion
    structural: with [MaxMigrationAttempts - nErrors] of it or more the
    result does not depend on it (lemma [migrationLoop_fuel]), and
    [TryMigrations] starts with exactly that much, so that the fuel runs
    out when the loop condition turns false. *)
Fixpoint migrationLoop (fuel : nat) (nErrors : Z) (err : error)
  : Prog error :=
  match fuel with
  | O => mret (Errorf "creating table: " err)
  | S fuel' =>
      if nErrors <? MaxMigrationAttempts c then
        '(n, err) ← callMigrate;
        match err with
        | None =>
            _ ← logInfo "db-migration-complete" [("num-applied", LInt n)];
            mret None
        | Some _ =>
            _ ← sleep (MigrationAttemptSleepDuration c);
            migrationLoop fuel' (nErrors + 1) err
        end
      else mret (Errorf "creating table: " err)
  end.

Definition TryMigrations : Prog error :=
  migrationLoop (Z.to_nat (MaxMigrationAttempts c)) 0 None.

Definition ReleaseSubnetLease : Prog error :=
  err ← callDeleteEntry (UnderlayIP c);
  match err with
  | Some _ => mret (Errorf "releasing lease: " err)
  | None =>
      _ ← logInfo "subnet-released" [("underlay ip", LString (UnderlayIP c))];
      mret None
  end.

Definition RoutableLeases : Prog (list controller.Lease * error) :=
  '(leases, err) ← callAll;
  match err with
  | Some _ => mret ([], Errorf "getting all leases: " err)
  | None => mret (leases, None)
  end.

Definition tryAcquireLease (underlayIP : string)
  : Prog (option controller.Lease * error) :=
  '(leases, err) ← callAll;
  match err with
  | Some _ => mret (None, Errorf "getting all subnets: " err)
  | None =>
      let taken := map controller.OverlaySubnet leases in
      '(subnet, err) ← callGetAvailable taken;
      match err with
      | Some _ => mret (None, Errorf "get available subnet: " err)
      | None =>
          let '(vtepIP, err) := ParseCIDR subnet in
          match err with
          | Some _ => mret (None, Errorf "parse subnet: " err)
          | None =>
              '(hwAddr, err) ← callGenerateForVTEP vtepIP;
              match err with
              | Some _ =>
                  mret (None, Errorf "generate hardware address: " err)
              | None =>
                  let lease := {|
                    controller.UnderlayIP := underlayIP;
                    controller.OverlaySubnet := subnet;
                    controller.OverlayHardwareAddr :=
                      net.HardwareAddr_String hwAddr
                  |} in
                  err ← callAddEntry lease;
                  match err with
                  | Some _ => mret (None, Errorf "adding lease entry: " err)
                  | None => mret (Some lease, None)
                  end
              end
          end
      end
  end.

(** The loop of [AcquireSubnetLease]; [lease] and [err] are the two
    variables declared at the top of the function.  The fuel is as in
    [migrationLoop] (lemma [acquireLoop_fuel]). *)
Fixpoint acquireLoop (fuel : nat) (underlayIP : string) (numErrs : Z)
    (lease : option controller.Lease) (err : error)
  : Prog (option controller.Lease * error) :=
  match fuel with
  | O => mret (lease, err)
  | S fuel' =>
      if numErrs <? AcquireSubnetLeaseAttempts c then
        '(lease, err) ← tryAcquireLease underlayIP;
        match err with
        | None =>
            _ ← logInfo "lease-acquired" [("lease", LLease lease)];
            mret (lease, None)
        | Some _ => acquireLoop fuel' underlayIP (numErrs + 1) lease err
        end
      else mret (lease, err)
  end.

Definition AcquireSubnetLease (underlayIP : string)
  : Prog (option controller.Lease * error) :=
  '(lease, err) ← callLeaseForUnderlayIP underlayIP;
  match lease with
  | Some _ =>
      _ ← logInfo "lease-renewed" [("lease", LLease lease)];
      mret (lease, None)
  | None =>
      acquireLoop (Z.to_nat (AcquireSubnetLeaseAttempts c))
        underlayIP 0 lease err
  end.

End Controller.

(** [db.GetConnectionPool] of the database helper library: one more
    collaborator acting on the world.  The connection it returns is kept
    in the world, where the handler in scope finds it. *)
Class connectionPool (W DBConfig : Type) : Type := {
  GetConnectionPool : DBConfig → W → error * W
}.

Section Constructor.
Context {W DBConfig : Type}.
Context `{DB : !databaseHandler W} `{Conn : !connectionPool W DBConfig}.

#[local] Existing Instances prog_ret prog_bind.

(** The connection attempt is not a method of the three interfaces and
    leaves no entry in the call history. *)
Definition getConnectionPool (db : DBConfig) : Prog error := λ w,
  let '(err, w') := GetConnectionPool db w in (err, w', []).

(** [time.Second], in nanoseconds. *)
Definition Second : Z := 1000000000.

(** [NewLeaseController].  [NewDatabaseHandler] and [NewCIDRPool] only
    build values and make no call; the handler, the pool and the
    generator they stand for are the instances in scope. *)
Definition NewLeaseController (cfg : config.Config DBConfig)
  : Prog (option LeaseController * error) :=
  err ← getConnectionPool (config.Database cfg);
  match err with
  | Some _ => mret (None, Errorf "connecting to database: " err)
  | None =>
      let leaseController := {|
        MaxMigrationAttempts := 5;
        MigrationAttemptSleepDuration := Second;
        AcquireSubnetLeaseAttempts := 10;
        UnderlayIP := config.UnderlayIP cfg
      |} in
      err ← TryMigrations leaseController;
      match err with
      | Some _ => mret (None, Errorf "migrating database: " err)
      | None => mret (Some leaseController, None)
      end
  end.

End Constructor.

End lib.

(** ** Test doubles: an in-memory world for concrete runs

    The store keeps its rows in insertion order and enforces the
    uniqueness of host and subnet; [Migrate] and the lookup can be
    scripted to fail, as with the [Returns]/[ReturnsOnCall] setters of
    the generated fakes.  The pool hands out the first candidate that is
    not taken. *)
Module fakes.
Import lib.

Record World : Type := {
  rows : list controller.Lease;
  MigrateReturnsOnCall : list (Z * error);
  MigrateReturns : Z * error;
  LeaseForUnderlayIPError : error;
  candidates : list string
}.

Definition setRows (w : World) (r : list controller.Lease) : World :=
  {| rows := r;
     MigrateReturnsOnCall := MigrateReturnsOnCall w;
     MigrateReturns := MigrateReturns w;
     LeaseForUnderlayIPError := LeaseForUnderlayIPError w;
     candidates := candidates w |}.

Definition setMigrateReturnsOnCall (w : World) (s : list (Z * error))
  : World :=
  {| rows := rows w;
     MigrateReturnsOnCall := s;
     MigrateReturns := MigrateReturns w;
     LeaseForUnderlayIPError := LeaseForUnderlayIPError w;
     candidates := candidates w |}.

Definition clashes (l r : controller.Lease) : bool :=
  String.eqb (controller.UnderlayIP l) (controller.UnderlayIP r)
  || String.eqb (controller.OverlaySubnet l) (controller.OverlaySubnet r).

Definition isFor (ip : string) (r : controller.Lease) : bool :=
  String.eqb ip (controller.UnderlayIP r).

#[global] Instance DatabaseHandler : databaseHandler World := {
  Migrate w :=
    match MigrateReturnsOnCall w with
    | r :: rest => (r, setMigrateReturnsOnCall w rest)
    | [] => (MigrateReturns w, w)
    end;
  AddEntry l w :=
    if existsb (clashes l) (rows w)
    then (Some "duplicate entry", w)
    else (None, setRows w (rows w ++ [l]));
  DeleteEntry ip w :=
    if existsb (isFor ip) (rows w)
    then (None, setRows w (List.filter (λ r, negb (isFor ip r)) (rows w)))
    else (Some "no lease for underlay ip", w);
  LeaseForUnderlayIP ip w :=
    match LeaseForUnderlayIPError w with
    | Some e => ((None, Some e), w)
    | None => ((List.find (isFor ip) (rows w), None), w)
    end;
  All w := ((rows w, None), w)
}.

Definition isFree (taken : list string) (s : string) : bool :=
  negb (existsb (String.eqb s) taken).

#[global] Instance CIDRPool : cidrPool World := {
  GetAvailable taken w :=
    match List.find (isFree taken) (candidates w) with
    | Some s => ((s, None), w)
    | None => (("", Some "no subnets available"), w)
    end
}.

#[global] Instance HardwareAddressGenerator
  : hardwareAddressGenerator World := {
  GenerateForVTEP ip w :=
    match ip with
    | [a; b; c; d] => (([238; 238; a; b; c; d], None), w)
    | _ => (([], Some "ip is not an IPv4 address"), w)
    end
}.

(** A dotted-quad parser standing in for the address parsers of the Go
    library in concrete runs only; the properties of the controller take
    the parser as a parameter.  It differs from [net.ParseCIDR]: it
    returns the four-byte form of the address where Go returns the
    sixteen-byte form, it accepts octets written with leading zeros, and
    it knows no IPv6. *)
Fixpoint splitOn (sep : ascii) (s : string) : list string :=
  match s with
  | EmptyString => [EmptyString]
  | String ch r =>
      if Ascii.eqb ch sep then EmptyString :: splitOn sep r
      else match splitOn sep r with
           | p :: ps => String ch p :: ps
           | [] => [String ch EmptyString]
           end
  end.

Definition digit (ch : ascii) : option Z :=
  let n := Z.of_nat (nat_of_ascii ch) in
  if (48 <=? n) && (n <=? 57) then Some (n - 48) else None.

Fixpoint parseDecFrom (acc : Z) (s : string) : option Z :=
  match s with
  | EmptyString => Some acc
  | String ch r =>
      match digit ch with
      | Some d => parseDecFrom (10 * acc + d) r
      | None => None
      end
  end.

Definition parseDec (s : string) : option Z :=
  match s with
  | EmptyString => None
  | _ => parseDecFrom 0 s
  end.

Definition parseOctet (s : string) : option Z :=
  match parseDec s with
  | Some n => if n <=? 255 then Some n else None
  | None => None
  end.

Definition parseIPv4 (s : string) : option net.IP :=
  match List.map parseOctet (splitOn "." s) with
  | [Some a; Some b; Some c; Some d] => Some [a; b; c; d]
  | _ => None
  end.

Definition parsePrefix (s : string) : option (net.IP * Z) :=
  match splitOn "/" s with
  | [addr; len] =>
      match parseIPv4 addr, parseDec len with
      | Some ip, Some n => if n <=? 32 then Some (ip, n) else None
      | _, _ => None
      end
  | _ => None
  end.

Definition ParseCIDR (s : string) : net.IP * error :=
  match parsePrefix s with
  | Some (ip, _) => (ip, None)
  | None => ([], Some ("invalid CIDR address: " +:+ s))
  end.

Definition emptyWorld : World :=
  {| rows := [];
     MigrateReturnsOnCall := [];
     MigrateReturns := (0, None);
     LeaseForUnderlayIPError := None;
     candidates := ["10.255.1.0/24"; "10.255.2.0/24"; "10.255.3.0/24"] |}.

Definition config (attempts : Z) : LeaseController :=
  {| MaxMigrationAttempts := attempts;
     MigrationAttemptSleepDuration := 1000000000;
     AcquireSubnetLeaseAttempts := attempts;
     UnderlayIP := "10.244.5.6" |}.

End fakes.

(** ** Test doubles with faults: lost races and a database out of reach

    The store of [fakes] behind a connection that can be refused, and
    with other hosts around: every insert is preceded by the insert of
    the next intruder, if one is left, as when another daemon wins the
    race between the listing and the insert. *)
Module faults.
Import lib.

Record World : Type := {
  store : fakes.World;
  intruders : list controller.Lease;
  GetConnectionPoolError : error
}.

Definition setStore (w : World) (s : fakes.World) : World :=
  {| store := s;
     intruders := intruders w;
     GetConnectionPoolError := GetConnectionPoolError w |}.

Definition lift {A : Type} (f : fakes.World → A * fakes.World) (w : World)
  : A * World :=
  let '(a, s) := f (store w) in (a, setStore w s).

#[global] Instance DatabaseHandler : databaseHandler World := {
  Migrate := lift (Migrate (W := fakes.World));
  AddEntry l w :=
    match intruders w with
    | i :: rest =>
        let '(_, s1) := AddEntry i (store w) in
        let '(r, s2) := AddEntry l s1 in
        (r, {| store := s2;
               intruders := rest;
               GetConnectionPoolError := GetConnectionPoolError w |})
    | [] => lift (AddEntry l) w
    end;
  DeleteEntry ip := lift (DeleteEntry ip);
  LeaseForUnderlayIP ip := lift (LeaseForUnderlayIP ip);
  All := lift (All (W := fakes.World))
}.

#[global] Instance CIDRPool : cidrPool World := {
  GetAvailable taken := lift (GetAvailable taken)
}.

#[global] Instance HardwareAddressGenerator
  : hardwareAddressGenerator World := {
  GenerateForVTEP ip := lift (GenerateForVTEP ip)
}.

#[global] Instance ConnectionPool : connectionPool World unit := {
  GetConnectionPool _ w := (GetConnectionPoolError w, w)
}.

Definition world (s : fakes.World) (others : list controller.Lease)
    (refused : error) : World :=
  {| store := s; intruders := others; GetConnectionPoolError := refused |}.

Definition cfg : config.Config unit :=
  {| config.Database := tt;
     config.SubnetRange := "10.255.0.0/16";
     config.SubnetMask := 24;
     config.UnderlayIP := "10.244.5.6" |}.

End faults.

(** ** Package [veth]: the veth manager

    Only the tests of this package are among the sources.  The manager
    and the kernel operations under it are modelled from the
    specification (sections 4.4, 6 and 7) and from the error texts the
    tests expect. *)
Module veth.

(** Modelled from the spec: the family filter of the adapter's
    list-addresses operation (section 6); the adapter is not among the
    sources. *)
Inductive Family : Type := FAMILY_ALL | FAMILY_V4 | FAMILY_V6.

Definition SCOPE_LINK : Z := 253.

(** Modelled from the spec: an address as [assignIP] gives it (section
    4.4) and as the tests read it back from [netlink.Addr]: the address,
    its point-to-point peer, its scope. *)
Record Addr : Type := {
  IPNet : net.IPNet;
  Peer : option net.IPNet;
  Scope : Z
}.

#[global] Instance Addr_eq_dec : EqDecision Addr.
Proof. solve_decision. Defined.

(** Modelled from the spec: membership in "the IPv6 family" (section
    4.4), decided on the address bytes as [net.IP.To4] does. *)
Definition isIPv6 (a : Addr) : bool :=
  match net.To4 (net.IPNet_IP (IPNet a)) with
  | Some _ => false
  | None => true
  end.

Definition inFamily (f : Family) (a : Addr) : bool :=
  match f with
  | FAMILY_ALL => true
  | FAMILY_V4 => negb (isIPv6 a)
  | FAMILY_V6 => isIPv6 a
  end.

(** Modelled from the spec: the link and namespace tables behind the
    Namespace/Link Adapter (section 6), which is not among the sources:
    the namespaces, by path, and the links, by namespace and name, each
    with its addresses in the order they were added. *)
Record Link : Type := { MTU : Z; Addrs : list Addr }.

Record Kernel : Type := {
  namespaces : gset string;
  links : gmap (string * string) Link
}.

Definition setLinks (k : Kernel) (ls : gmap (string * string) Link)
  : Kernel :=
  {| namespaces := namespaces k; links := ls |}.

(** Modelled from the spec: [VethPair] of section 3 and the manager
    with its two resolved namespace handles. *)
Record Endpoint : Type := { LinkName : string; Namespace : string }.
Record Pair : Type := { Host : Endpoint; Container : Endpoint }.
Record Manager : Type := { HostNS : string; ContainerNS : string }.

Definition key (e : Endpoint) : string * string := (Namespace e, LinkName e).

(** An operation on the kernel fails with a message or returns a value.
    A failure keeps the changes made before it: nothing is rolled back. *)
Definition K (A : Type) : Type := Kernel → (string + A) * Kernel.

#[global] Instance K_ret : MRet K := λ A a k, (inr a, k).
#[global] Instance K_bind : MBind K := λ A B f m k,
  match m k with
  | (inl e, k') => (inl e, k')
  | (inr a, k') => f a k'
  end.

Definition fail {A : Type} (e : string) : K A := λ k, (inl e, k).

(** [fmt.Errorf(ctx + ": %s", err)] around a failing step. *)
Definition wrap {A : Type} (ctx : string) (m : K A) : K A := λ k,
  match m k with
  | (inl e, k') => (inl (ctx +:+ ": " +:+ e), k')
  | r => r
  end.

Fixpoint forEach {A : Type} (f : A → K unit) (l : list A) : K unit :=
  match l with
  | [] => mret tt
  | a :: rest => _ ← f a; forEach f rest
  end.

(** Modelled from the spec: open-namespace-by-path of the Namespace/Link
    Adapter (section 6), whose code is not among the sources. *)
Definition GetNS (path : string) : K string := λ k,
  if bool_decide (path ∈ namespaces k) then (inr path, k)
  else (inl ("no such namespace " +:+ path), k).

(** Modelled from the spec: link-by-name of the adapter (section 6),
    run inside namespace [ns]; the error text is the one the tests
    expect for a missing link. *)
Definition LinkByName (ns name : string) : K Link := λ k,
  match links k !! (ns, name) with
  | Some l => (inr l, k)
  | None => (inl "Link not found", k)
  end.

Definition putLink (ns name : string) (l : Link) : K unit := λ k,
  (inr tt, setLinks k (<[(ns, name) := l]> (links k))).

(** Modelled from the spec: list-addresses(link, family-filter) of the
    adapter (section 6). *)
Definition AddrList (ns name : string) (f : Family) : K (list Addr) :=
  l ← LinkByName ns name; mret (List.filter (inFamily f) (Addrs l)).

Definition sameIPNet (a b : Addr) : bool :=
  bool_decide (IPNet a = IPNet b).

(** Modelled from the spec: add-address(link, address) of the adapter
    (section 6); an address already on the link is refused. *)
Definition AddrAdd (ns name : string) (a : Addr) : K unit :=
  l ← LinkByName ns name;
  if existsb (sameIPNet a) (Addrs l) then fail "file exists"
  else putLink ns name {| MTU := MTU l; Addrs := Addrs l ++ [a] |}.

(** The first entry equal to [a] is taken out. *)
Fixpoint removeAddr (a : Addr) (l : list Addr) : option (list Addr) :=
  match l with
  | [] => None
  | b :: rest =>
      if bool_decide (a = b) then Some rest
      else match removeAddr a rest with
           | Some rest' => Some (b :: rest')
           | None => None
           end
  end.

(** Modelled from the spec: delete-address(link, address) of the
    adapter (section 6); an address that is not on the link is refused. *)
Definition AddrDel (ns name : string) (a : Addr) : K unit :=
  l ← LinkByName ns name;
  match removeAddr a (Addrs l) with
  | None => fail "cannot assign requested address"
  | Some rest => putLink ns name {| MTU := MTU l; Addrs := rest |}
  end.

Definition exists_link (ns name : string) (k : Kernel) : bool :=
  bool_decide (is_Some (links k !! (ns, name))).

(** Modelled from the spec: create-veth-pair and set-link-namespace of
    the adapter (section 6) in one step: one end per namespace, both
    without addresses; a name that is in use is refused. *)
Definition CreateVeth (cns name hns peerName : string) (mtu : Z) : K unit :=
  λ k,
    if exists_link cns name k || exists_link hns peerName k
       || bool_decide ((cns, name) = (hns, peerName))
    then (inl "file exists", k)
    else
      (_ ← putLink hns peerName {| MTU := mtu; Addrs := [] |};
       putLink cns name {| MTU := mtu; Addrs := [] |}) k.

Section Manager.
(** [netlink.ParseAddr], [net.IP.String] and the generator of
    host-side names (given which names are in use). *)
Variable ParseAddr : string → string + Addr.
Variable IPString : net.IP → string.
Variable generateHostName : (string → bool) → string.

Definition parseAddr (s : string) : K Addr := λ k, (ParseAddr s, k).

(** Modelled from the spec: [init] of section 4.4. *)
Definition init (hostPath containerPath : string) : K Manager :=
  h ← wrap "Getting host namespace" (GetNS hostPath);
  c ← wrap "Getting container namespace" (GetNS containerPath);
  mret {| HostNS := h; ContainerNS := c |}.

(** Modelled from the spec: [createPair] of section 4.4, with the
    existence check before the creation and the error text of the
    test. *)
Definition createPair (m : Manager) (ifname : string) (mtu : Z) : K Pair :=
  λ k,
    if exists_link (ContainerNS m) ifname k
    then (inl ("container veth name provided (" +:+ ifname
               +:+ ") already exists"), k)
    else
      let hostName :=
        generateHostName (λ n, exists_link (HostNS m) n k) in
      (_ ← wrap "creating veth pair"
             (CreateVeth (ContainerNS m) ifname (HostNS m) hostName mtu);
       mret {| Host := {| LinkName := hostName; Namespace := HostNS m |};
               Container := {| LinkName := ifname;
                               Namespace := ContainerNS m |} |}) k.

(** Modelled from the spec: one side of [assignIP]. Both strings are
    parsed, then the address is added to the link of that side. *)
Definition setPointToPointAddress (e : Endpoint) (loc peer : string)
  : K unit :=
  addr ← wrap ("parsing address " +:+ loc) (parseAddr loc);
  peerAddr ← wrap ("parsing address " +:+ peer) (parseAddr peer);
  _ ← wrap ("find link by name " +:+ LinkName e)
        (LinkByName (Namespace e) (LinkName e));
  wrap ("adding address " +:+ loc)
    (AddrAdd (Namespace e) (LinkName e)
       {| IPNet := IPNet addr;
          Peer := Some (IPNet peerAddr);
          Scope := SCOPE_LINK |}).

Definition hostAddress : string := "169.254.0.1/32".

(** Modelled from the spec: [assignIP] of section 4.4. *)
Definition assignIP (p : Pair) (containerIP : net.IP) : K unit :=
  let containerAddress := IPString containerIP +:+ "/32" in
  _ ← setPointToPointAddress (Host p) hostAddress containerAddress;
  setPointToPointAddress (Container p) containerAddress hostAddress.

(** Modelled from the spec: one side of [disableIPv6]: "enumerate
    addresses filtered to the IPv6 family, remove each". *)
Definition removeIPv6 (e : Endpoint) : K unit :=
  addrs ← AddrList (Namespace e) (LinkName e) FAMILY_V6;
  forEach (AddrDel (Namespace e) (LinkName e)) addrs.

(** Modelled from the spec: [disableIPv6] of section 4.4, on both ends
    of the pair. *)
Definition disableIPv6 (p : Pair) : K unit :=
  _ ← removeIPv6 (Host p); removeIPv6 (Container p).

(** What the tests read back: the addresses of an endpoint. *)
Definition addrsOf (e : Endpoint) (f : Family) (k : Kernel)
  : option (list Addr) :=
  match links k !! key e with
  | Some l => Some (List.filter (inFamily f) (Addrs l))
  | None => None
  end.

End Manager.

End veth.

(** Concrete stand-ins for the parameters of the veth manager, for
    concrete runs only.  [ParseAddr] is built on the dotted-quad parser
    of [fakes] and shares its limits: four-byte addresses where
    [netlink.ParseAddr] returns sixteen bytes, and no IPv6. *)
Module vethfakes.
Import veth.

Definition digitChar (d : Z) : ascii := ascii_of_nat (Z.to_nat (48 + d)).

Definition printOctet (n : Z) : string :=
  let d0 := String (digitChar (n mod 10)) EmptyString in
  let d1 := String (digitChar ((n / 10) mod 10)) d0 in
  if n <? 10 then d0
  else if n <? 100 then d1
  else String (digitChar (n / 100)) d1.

Definition IPString (ip : net.IP) : string :=
  match net.To4 ip with
  | Some [a; b; c; d] =>
      printOctet a +:+ "." +:+ printOctet b +:+ "."
      +:+ printOctet c +:+ "." +:+ printOctet d
  | _ => "?"
  end.

Definition IPNetString (n : net.IPNet) : string :=
  IPString (net.IPNet_IP n) +:+ "/"
  +:+ printOctet (net.IPNet_Ones n).

Definition ParseAddr (s : string) : string + Addr :=
  match fakes.parsePrefix s with
  | Some (ip, n) =>
      inr {| IPNet := {| net.IPNet_IP := ip; net.IPNet_Ones := n |};
             Peer := None;
             Scope := 0 |}
  | None => inl ("invalid CIDR address: " +:+ s)
  end.

Definition generateHostName (taken : string → bool) : string :=
  if taken "veth0" then "veth1" else "veth0".

Definition emptyKernel : Kernel :=
  {| namespaces := {["/var/run/netns/host"; "/var/run/netns/container"]};
     links := ∅ |}.

End vethfakes.

(** * Auxiliary notions for the lease controller *)

Import lib.

(** Unfolds the sequencing of computations and the recording wrappers. *)
Ltac unfold_prog :=
  unfold mbind, prog_bind, mret, prog_ret, callMigrate, callAddEntry,
    callDeleteEntry, callLeaseForUnderlayIP, callAll, callGetAvailable,
    callGenerateForVTEP, sleep, logInfo in *.

(** Splits on the next scrutinee of the goal or of a hypothesis. *)
Ltac case_step :=
  match goal with
  | |- context [match ?x with _ => _ end] => destruct x eqn:?
  | H : context [match ?x with _ => _ end] |- _ => destruct x eqn:?
  end.

Ltac case_steps := repeat (simpl in *; simplify_eq; try case_step).

Definition isAll (e : Call) : bool :=
  match e with CallAll _ _ => true | _ => false end.

Definition isSleep (e : Call) : bool :=
  match e with CallSleep _ => true | _ => false end.

Definition isMigrate (e : Call) : bool :=
  match e with CallMigrate _ _ => true | _ => false end.

Definition failed {A : Type} (r : A * error) : Prop := r.2 ≠ None.

(** Classes of entries of the call history. *)
Definition isInserted (e : Call) : bool :=
  match e with CallAddEntry _ None => true | _ => false end.

Definition isFailedMigrate (e : Call) : bool :=
  match e with CallMigrate _ (Some _) => true | _ => false end.

Definition isLookup (e : Call) : bool :=
  match e with CallLeaseForUnderlayIP _ _ _ => true | _ => false end.

(** The calls an acquisition attempt can make. *)
Definition attemptCall (e : Call) : bool :=
  match e with
  | CallAll _ _ | CallGetAvailable _ _ _ | CallGenerateForVTEP _ _ _
  | CallAddEntry _ _ => true
  | _ => false
  end.

Definition isLog (e : Call) : bool :=
  match e with CallLogInfo _ _ => true | _ => false end.

(** The entries [AcquireSubnetLease] can add after its lookup. *)
Definition acquireCall (e : Call) : bool := attemptCall e || isLog e.

Section Histories.
Context {W : Type}.
Context `{DB : !databaseHandler W} `{Pool : !cidrPool W}
        `{Gen : !hardwareAddressGenerator W}.
Variable ParseCIDR : string → net.IP * error.
Variable c : LeaseController.

(** The results of [k] calls of [Migrate] in a row, and the world after
    them. *)
Fixpoint migrateRuns (k : nat) (w : W) : list (Z * error) * W :=
  match k with
  | O => ([], w)
  | S k' =>
      let '(r, w1) := Migrate w in
      let '(rs, w2) := migrateRuns k' w1 in
      (r :: rs, w2)
  end.

(** What a failed migration attempt leaves in the call history. *)
Definition failedMigration (r : Z * error) : list Call :=
  [CallMigrate r.1 r.2; CallSleep (MigrationAttemptSleepDuration c)].

Definition migrationComplete (n : Z) : list Call :=
  [CallMigrate n None;
   CallLogInfo "db-migration-complete" [("num-applied", LInt n)]].

(** The results and call histories of [k] runs of [tryAcquireLease] in
    a row, and the world after them. *)
Fixpoint attemptRuns (k : nat) (ip : string) (w : W)
  : list ((option controller.Lease * error) * list Call) * W :=
  match k with
  | O => ([], w)
  | S k' =>
      let '(r, w1, t) := tryAcquireLease ParseCIDR ip w in
      let '(rs, w2) := attemptRuns k' ip w1 in
      ((r, t) :: rs, w2)
  end.

Definition failedAttempt
    (r : (option controller.Lease * error) * list Call) : Prop :=
  r.1.2 ≠ None.

(** Every run in the sequence starts by reading the list of leases,
    reads it once, does not sleep, and returns no lease if it fails. *)
Definition attemptShape
    (r : (option controller.Lease * error) * list Call) : Prop :=
  ∃ ls e rest,
    r.2 = CallAll ls e :: rest ∧
    List.filter isAll rest = [] ∧
    List.filter isSleep rest = [] ∧
    (r.1.2 ≠ None → r.1.1 = None).

End Histories.

(** ** Worlds for concrete runs *)

Definition fullWorld : fakes.World :=
  fakes.setRows fakes.emptyWorld
    [ {| controller.UnderlayIP := "10.244.0.1";
         controller.OverlaySubnet := "10.255.1.0/24";
         controller.OverlayHardwareAddr := "ee:ee:0a:ff:01:00" |};
      {| controller.UnderlayIP := "10.244.0.2";
         controller.OverlaySubnet := "10.255.2.0/24";
         controller.OverlayHardwareAddr := "ee:ee:0a:ff:02:00" |};
      {| controller.UnderlayIP := "10.244.0.3";
         controller.OverlaySubnet := "10.255.3.0/24";
         controller.OverlayHardwareAddr := "ee:ee:0a:ff:03:00" |} ].

Definition migratingWorld (script : list (Z * error)) (default : Z * error)
  : fakes.World :=
  {| fakes.rows := [];
     fakes.MigrateReturnsOnCall := script;
     fakes.MigrateReturns := default;
     fakes.LeaseForUnderlayIPError := None;
     fakes.candidates := [] |}.

Definition brokenLookupWorld : fakes.World :=
  {| fakes.rows := [];
     fakes.MigrateReturnsOnCall := [];
     fakes.MigrateReturns := (0, None);
     fakes.LeaseForUnderlayIPError := Some "banana";
     fakes.candidates := ["10.255.1.0/24"] |}.

(** Another host takes ["10.255.1.0/24"] between the first listing and
    the first insert. *)
Definition racyWorld : faults.World :=
  faults.world fakes.emptyWorld
    [{| controller.UnderlayIP := "10.244.0.9";
        controller.OverlaySubnet := "10.255.1.0/24";
        controller.OverlayHardwareAddr := "ee:ee:0a:ff:01:00" |}]
    None.

Definition downWorld : faults.World :=
  faults.world (migratingWorld [] (0, Some "connection refused")) [] None.

Definition flakyWorld : faults.World :=
  faults.world (migratingWorld [(0, Some "timeout")] (2, None)) [] None.

(** ** Auxiliary notions for the veth manager *)

Import veth.

(** Taking the entries of [ds] out of [l], one after the other. *)
Fixpoint removeAll (ds l : list Addr) : option (list Addr) :=
  match ds with
  | [] => Some l
  | d :: rest =>
      match removeAddr d l with
      | Some l' => removeAll rest l'
      | None => None
      end
  end.

Definition keepIPv4 (l : Link) : Link :=
  {| MTU := MTU l; Addrs := List.filter (λ a, negb (isIPv6 a)) (Addrs l) |}.

Definition noIPv6 (e : Endpoint) (k : Kernel) : Prop :=
  addrsOf e FAMILY_V6 k = Some [].

(** The address [assignIP] puts on one side. *)
Definition pointToPoint (loc peer : Addr) : Addr :=
  {| IPNet := IPNet loc; Peer := Some (IPNet peer); Scope := SCOPE_LINK |}.

(** ** Kernels for concrete runs *)

Definition theManager : Manager :=
  {| HostNS := "/var/run/netns/host";
     ContainerNS := "/var/run/netns/container" |}.

Definition thePair : Pair :=
  {| Host := {| LinkName := "veth0"; Namespace := "/var/run/netns/host" |};
     Container := {| LinkName := "eth0";
                     Namespace := "/var/run/netns/container" |} |}.

Definition linkLocal (last : Z) : Addr :=
  {| IPNet := {| net.IPNet_IP :=
                   [254; 128; 0; 0; 0; 0; 0; 0; 0; 0; 0; 0; 0; 0; 0; last];
                 net.IPNet_Ones := 64 |};
     Peer := None;
     Scope := SCOPE_LINK |}.

Definition kernelWith (hostAddrs containerAddrs : list Addr) : Kernel :=
  {| namespaces := namespaces vethfakes.emptyKernel;
     links :=
       <[key (Container thePair) := {| MTU := 1500; Addrs := containerAddrs |}]>
         (<[key (Host thePair) := {| MTU := 1500; Addrs := hostAddrs |}]> ∅) |}.

Definition cleanKernel : Kernel := kernelWith [] [].

Definition dualStackKernel : Kernel :=
  kernelWith [linkLocal 1; linkLocal 2] [linkLocal 3].

(** ** Facts about the lease controller *)

Section LeaseControllerFacts.
Context {W : Type}.
Context `{DB : !databaseHandler W} `{Pool : !cidrPool W}
        `{Gen : !hardwareAddressGenerator W}.
Variable ParseCIDR : string → net.IP * error.
Variable c : LeaseController.

(** An attempt reports the list of leases it read first and reads it
    once; it never sleeps; when it fails it returns no lease. *)
Lemma tryAcquireLease_shape ip w :
  ∃ ls e w1 rest,
    All w = ((ls, e), w1) ∧
    (tryAcquireLease ParseCIDR ip w).2 = CallAll ls e :: rest ∧
    List.filter isAll rest = [] ∧
    List.filter isSleep rest = [] ∧
    ((tryAcquireLease ParseCIDR ip w).1.1.2 ≠ None →
     (tryAcquireLease ParseCIDR ip w).1.1.1 = None).
Proof.
  unfold tryAcquireLease. unfold_prog.
  destruct (All w) as [[ls e] w1] eqn:HAll.
  exists ls, e, w1.
  case_steps; eexists; repeat split; try reflexivity; try congruence.
Qed.

(** C1. A successful acquisition attempt returns the lease made of the
    requested host identifier, the subnet the pool returned for the
    subnets of the leases just listed, and the text of the hardware
    address generated for the address parsed from that subnet; this
    same lease is the one handed to the store's insert, which
    succeeded. *)
Theorem tryAcquireLease_returns_inserted_lease ip w r w' tr :
  tryAcquireLease ParseCIDR ip w = ((r, None), w', tr) →
  ∃ leases subnet vtepIP hwAddr w1 w2 w3,
    let lease := {|
      controller.UnderlayIP := ip;
      controller.OverlaySubnet := subnet;
      controller.OverlayHardwareAddr := net.HardwareAddr_String hwAddr
    |} in
    All w = ((leases, None), w1) ∧
    GetAvailable (map controller.OverlaySubnet leases) w1
      = ((subnet, None), w2) ∧
    ParseCIDR subnet = (vtepIP, None) ∧
    GenerateForVTEP vtepIP w2 = ((hwAddr, None), w3) ∧
    AddEntry lease w3 = (None, w') ∧
    r = Some lease ∧
    tr = [CallAll leases None;
          CallGetAvailable (map controller.OverlaySubnet leases) subnet None;
          CallGenerateForVTEP vtepIP hwAddr None;
          CallAddEntry lease None].
Proof.
  unfold tryAcquireLease. unfold_prog. intros H.
  destruct (All w) as [[leases e1] w1] eqn:HAll.
  destruct e1; simpl in H; [discriminate|].
  destruct (GetAvailable _ w1) as [[subnet e2] w2] eqn:HGet.
  destruct e2; simpl in H; [discriminate|].
  destruct (ParseCIDR subnet) as [vtepIP e3] eqn:HParse.
  destruct e3; simpl in H; [discriminate|].
  destruct (GenerateForVTEP vtepIP w2) as [[hwAddr e4] w3] eqn:HGen.
  destruct e4; simpl in H; [discriminate|].
  destruct (AddEntry _ w3) as [e5 w4] eqn:HAdd.
  destruct e5; simpl in H; [discriminate|].
  injection H as <- <- <-.
  exists leases, subnet, vtepIP, hwAddr, w1, w2, w3. simpl.
  repeat split; assumption.
Qed.

(** C2. When the lookup returns a lease, [AcquireSubnetLease] returns
    that lease and no error; the only calls are the lookup and the log
    line: the pool, the generator and the insert are not called, and
    the world is the one the lookup left. *)
Theorem AcquireSubnetLease_renews ip w lease e w1 :
  LeaseForUnderlayIP ip w = ((Some lease, e), w1) →
  AcquireSubnetLease ParseCIDR c ip w
  = ((Some lease, None), w1,
     [CallLeaseForUnderlayIP ip (Some lease) e;
      CallLogInfo "lease-renewed" [("lease", LLease (Some lease))]]).
Proof.
  intros H. unfold AcquireSubnetLease. unfold_prog.
  rewrite H. reflexivity.
Qed.

(** C10. With no lease found and a bound of attempts that is zero or
    negative, [AcquireSubnetLease] makes no attempt: the lookup is its
    only call, and it returns no lease together with whatever error the
    lookup returned, which is no error at all when the lookup
    succeeded. *)
Theorem AcquireSubnetLease_no_attempts ip w e w1 :
  AcquireSubnetLeaseAttempts c ≤ 0 →
  LeaseForUnderlayIP ip w = ((None, e), w1) →
  AcquireSubnetLease ParseCIDR c ip w
  = ((None, e), w1, [CallLeaseForUnderlayIP ip None e]).
Proof.
  intros Hle H. unfold AcquireSubnetLease. unfold_prog.
  rewrite H. simpl.
  replace (Z.to_nat (AcquireSubnetLeaseAttempts c)) with O by lia.
  reflexivity.
Qed.

(** The lookup's error does not survive a first attempt: once the loop
    runs, [err] is overwritten. *)
Lemma AcquireSubnetLease_first_attempt ip w e w1 lease w2 tr :
  0 < AcquireSubnetLeaseAttempts c →
  LeaseForUnderlayIP ip w = ((None, e), w1) →
  tryAcquireLease ParseCIDR ip w1 = ((lease, None), w2, tr) →
  AcquireSubnetLease ParseCIDR c ip w
  = ((lease, None), w2,
     CallLeaseForUnderlayIP ip None e
     :: tr ++ [CallLogInfo "lease-acquired" [("lease", LLease lease)]]).
Proof.
  intros Hpos H Htry. unfold AcquireSubnetLease.
  destruct (Z.to_nat (AcquireSubnetLeaseAttempts c)) as [|fuel] eqn:Hfuel;
    [lia|].
  unfold acquireLoop. unfold_prog. rewrite H. simpl.
  destruct (0 <? AcquireSubnetLeaseAttempts c) eqn:Hlt; [|lia].
  rewrite Htry. simpl. reflexivity.
Qed.

(** The single-shot operations hand a store error to the caller, with
    the operation named in front. *)
Lemma ReleaseSubnetLease_propagates w msg w1 :
  DeleteEntry (UnderlayIP c) w = (Some msg, w1) →
  ReleaseSubnetLease c w
  = (Some ("releasing lease: " +:+ msg), w1,
     [CallDeleteEntry (UnderlayIP c) (Some msg)]).
Proof.
  intros H. unfold ReleaseSubnetLease. unfold_prog. rewrite H. reflexivity.
Qed.

Lemma RoutableLeases_propagates w ls msg w1 :
  All w = ((ls, Some msg), w1) →
  RoutableLeases w
  = (([], Some ("getting all leases: " +:+ msg)), w1, [CallAll ls (Some msg)]).
Proof.
  intros H. unfold RoutableLeases. unfold_prog. rewrite H. reflexivity.
Qed.

(** ** The migration loop *)

Lemma last_cons_default {A : Type} (a d : A) (l : list A) :
  List.last (a :: l) d = List.last l a.
Proof.
  revert a d. induction l as [|b l IH]; intros a d; [reflexivity|].
  change (List.last (a :: b :: l) d) with (List.last (b :: l) d).
  rewrite !IH. reflexivity.
Qed.

Lemma last_snoc_default {A : Type} (d : A) (l : list A) :
  l ≠ [] → ∃ init a, l = init ++ [a] ∧ ∀ d', List.last l d' = a.
Proof.
  intros Hne. destruct (exists_last Hne) as (init & a & ->).
  exists init, a. split; [reflexivity|]. intros d'. apply last_last.
Qed.

Lemma migrateRuns_length k w : List.length (migrateRuns k w).1 = k.
Proof.
  revert w. induction k as [|k IH]; intros w; simpl; [reflexivity|].
  destruct (Migrate w) as [r w1]. specialize (IH w1).
  destruct (migrateRuns k w1) as [rs w2]. simpl in *. lia.
Qed.

(** The fuel never cuts the loop short: with at least
    [MaxMigrationAttempts - nErrors] of it the result is the same. *)
Lemma migrationLoop_fuel fuel1 fuel2 nErrors err w :
  (Z.to_nat (MaxMigrationAttempts c - nErrors) ≤ fuel1)%nat →
  (Z.to_nat (MaxMigrationAttempts c - nErrors) ≤ fuel2)%nat →
  migrationLoop c fuel1 nErrors err w = migrationLoop c fuel2 nErrors err w.
Proof.
  revert fuel2 nErrors err w.
  induction fuel1 as [|fuel1 IH]; intros fuel2 nErrors err w H1 H2.
  - destruct fuel2 as [|fuel2]; [reflexivity|]. simpl.
    destruct (nErrors <? MaxMigrationAttempts c) eqn:Hlt; [lia|reflexivity].
  - simpl. destruct (nErrors <? MaxMigrationAttempts c) eqn:Hlt.
    + destruct fuel2 as [|fuel2]; [lia|]. simpl. rewrite Hlt.
      unfold_prog. destruct (Migrate w) as [[n e] w1]. simpl.
      destruct e; [|reflexivity]. simpl.
      rewrite (IH fuel2) by lia. reflexivity.
    + destruct fuel2 as [|fuel2]; [reflexivity|]. simpl. rewrite Hlt.
      reflexivity.
Qed.

Lemma migrationLoop_exhausted fuel nErrors err w :
  fuel = Z.to_nat (MaxMigrationAttempts c - nErrors) →
  Forall failed (migrateRuns fuel w).1 →
  migrationLoop c fuel nErrors err w
  = (Errorf "creating table: " (List.last (map snd (migrateRuns fuel w).1) err),
     (migrateRuns fuel w).2,
     flat_map (failedMigration c) (migrateRuns fuel w).1).
Proof.
  revert nErrors err w.
  induction fuel as [|fuel IH]; intros nErrors err w Hfuel Hall;
    [reflexivity|].
  simpl in *.
  destruct (nErrors <? MaxMigrationAttempts c) eqn:Hlt; [|lia].
  unfold_prog. destruct (Migrate w) as [[n e] w1]. simpl.
  specialize (IH (nErrors + 1) e w1).
  destruct (migrateRuns fuel w1) as [rs w2]. simpl in *.
  inversion Hall as [|? ? Hr Hrs]; subst.
  destruct e as [msg|]; [|exfalso; apply Hr; reflexivity]. simpl.
  rewrite IH by (assumption || lia).
  repeat f_equal. symmetry.
  exact (last_cons_default (Some msg) err (map snd rs)).
Qed.

Lemma migrationLoop_completes M fuel nErrors err w n w' :
  (M < fuel)%nat →
  Z.of_nat M < MaxMigrationAttempts c - nErrors →
  Forall failed (migrateRuns M w).1 →
  Migrate (migrateRuns M w).2 = ((n, None), w') →
  migrationLoop c fuel nErrors err w
  = (None, w',
     flat_map (failedMigration c) (migrateRuns M w).1 ++ migrationComplete n).
Proof.
  revert fuel nErrors err w.
  induction M as [|M IH]; intros fuel nErrors err w Hfuel Hlt Hall Hok;
    (destruct fuel as [|fuel]; [lia|]); simpl in *;
    (destruct (nErrors <? MaxMigrationAttempts c) eqn:Hguard; [|lia]);
    unfold_prog.
  - rewrite Hok. reflexivity.
  - destruct (Migrate w) as [[m e] w1]. simpl.
    specialize (IH fuel (nErrors + 1) e w1).
    destruct (migrateRuns M w1) as [rs w2]. simpl in *.
    inversion Hall as [|? ? Hr Hrs]; subst.
    destruct e as [msg|]; [|exfalso; apply Hr; reflexivity]. simpl.
    rewrite IH by (assumption || lia). reflexivity.
Qed.

Lemma failedMigration_count rs :
  List.length (List.filter isMigrate (flat_map (failedMigration c) rs)) = List.length rs.
Proof.
  induction rs as [|r rs IH]; simpl; [reflexivity|]. rewrite IH. reflexivity.
Qed.

(** C4. If [Migrate] fails [M] times and then succeeds, and
    [MaxMigrationAttempts > M], then [TryMigrations] succeeds after the
    [M] failed calls, each followed by the configured sleep.  If all the
    [MaxMigrationAttempts] calls fail, whatever their errors are, it
    makes exactly that many calls (none when the bound is not
    positive), sleeps the configured time after each, and returns an
    error; with a positive bound this error carries the text of the
    last failure. *)
Theorem TryMigrations_retries w :
  (∀ M n w',
     Z.of_nat M < MaxMigrationAttempts c →
     Forall failed (migrateRuns M w).1 →
     Migrate (migrateRuns M w).2 = ((n, None), w') →
     TryMigrations c w
     = (None, w',
        flat_map (failedMigration c) (migrateRuns M w).1 ++ migrationComplete n))
  ∧
  (let rs := (migrateRuns (Z.to_nat (MaxMigrationAttempts c)) w).1 in
   Forall failed rs →
   ∃ tr,
     TryMigrations c w
     = (Errorf "creating table: " (List.last (map snd rs) None),
        (migrateRuns (Z.to_nat (MaxMigrationAttempts c)) w).2, tr) ∧
     tr = flat_map (failedMigration c) rs ∧
     Z.of_nat (List.length (List.filter isMigrate tr))
     = Z.max 0 (MaxMigrationAttempts c) ∧
     (0 < MaxMigrationAttempts c →
      ∃ init n msg,
        rs = init ++ [(n, Some msg)] ∧
        (TryMigrations c w).1.1 = Some ("creating table: " +:+ msg))).
Proof.
  split.
  - intros M n w' Hlt Hall Hok. unfold TryMigrations.
    apply migrationLoop_completes; (assumption || lia).
  - intros rs Hall. eexists. split; [|split; [reflexivity|split]].
    + unfold TryMigrations. apply migrationLoop_exhausted; [|assumption].
      f_equal. lia.
    + rewrite failedMigration_count. subst rs.
      rewrite migrateRuns_length. lia.
    + intros Hpos.
      assert (Hne : rs ≠ []).
      { intros Hnil. pose proof (migrateRuns_length
          (Z.to_nat (MaxMigrationAttempts c)) w) as Hlen.
        subst rs. rewrite Hnil in Hlen. simpl in Hlen. lia. }
      destruct (last_snoc_default (0, None) rs Hne)
        as (init & [n e] & Hrs & Hlast).
      assert (He : failed (n, e)).
      { rewrite Forall_forall in Hall. apply Hall. rewrite Hrs.
        apply list_elem_of_In, in_app_iff. right. left. reflexivity. }
      destruct e as [msg|]; [|exfalso; apply He; reflexivity].
      exists init, n, msg. split; [assumption|].
      unfold TryMigrations.
      rewrite migrationLoop_exhausted; [|f_equal; lia|assumption].
      fold rs. simpl. rewrite Hrs, map_app. simpl.
      rewrite last_last. reflexivity.
Qed.

(** C5, as the code has it: [TryMigrations] returns an error value
    only.  When it succeeds it returns [nil], and the count of applied
    changes that the successful [Migrate] returned is written to the
    log, in the last entry of the call history. *)
Theorem TryMigrations_logs_count w w' tr :
  TryMigrations c w = (None, w', tr) →
  ∃ n w0 tr0,
    Migrate w0 = ((n, None), w') ∧
    tr = tr0 ++ [CallMigrate n None;
                 CallLogInfo "db-migration-complete"
                   [("num-applied", LInt n)]].
Proof.
  unfold TryMigrations.
  assert (Hloop : ∀ fuel nErrors err w tr,
    migrationLoop c fuel nErrors err w = (None, w', tr) →
    ∃ n w0 tr0,
      Migrate w0 = ((n, None), w') ∧
      tr = tr0 ++ [CallMigrate n None;
                   CallLogInfo "db-migration-complete"
                     [("num-applied", LInt n)]]);
    [|apply Hloop].
  clear w tr. intros fuel.
  induction fuel as [|fuel IH]; intros nErrors err w tr H; simpl in H;
    [discriminate|].
  destruct (nErrors <? MaxMigrationAttempts c); [|discriminate].
  unfold_prog. destruct (Migrate w) as [[n e] w1] eqn:HM. simpl in H.
  destruct e as [msg|]; simpl in H.
  - destruct (migrationLoop c fuel (nErrors + 1) (Some msg) w1)
      as [[r w2] t2] eqn:Hrec.
    injection H as -> -> <-.
    destruct (IH _ _ _ _ Hrec) as (n' & w0 & tr0 & Hm & ->).
    exists n', w0, (CallMigrate n (Some msg)
                    :: CallSleep (MigrationAttemptSleepDuration c) :: tr0).
    split; [assumption|reflexivity].
  - injection H as <- <-.
    exists n, w, []. split; [assumption|reflexivity].
Qed.

(** ** The acquisition loop *)

Lemma attemptRuns_length k ip w : List.length (attemptRuns ParseCIDR k ip w).1 = k.
Proof.
  revert w. induction k as [|k IH]; intros w; simpl; [reflexivity|].
  destruct (tryAcquireLease ParseCIDR ip w) as [[r w1] t].
  specialize (IH w1). destruct (attemptRuns ParseCIDR k ip w1) as [rs w2].
  simpl in *. lia.
Qed.

Lemma attemptRuns_shape k ip w : Forall attemptShape (attemptRuns ParseCIDR k ip w).1.
Proof.
  revert w. induction k as [|k IH]; intros w; simpl; [constructor|].
  destruct (tryAcquireLease_shape ip w)
    as (ls & e & w0 & rest & _ & Htr & HnoAll & HnoSleep & Hnil).
  destruct (tryAcquireLease ParseCIDR ip w) as [[r w1] t].
  specialize (IH w1). destruct (attemptRuns ParseCIDR k ip w1) as [rs w2].
  simpl in *. constructor; [|assumption].
  exists ls, e, rest. simpl. repeat split; assumption.
Qed.

Lemma attempts_count rs :
  Forall attemptShape rs →
  List.length (List.filter isAll (List.concat (map snd rs))) = List.length rs ∧
  List.filter isSleep (List.concat (map snd rs)) = [].
Proof.
  induction 1 as [|r rs (ls & e & rest & Htr & HnoAll & HnoSleep & _) _ IH];
    simpl; [split; reflexivity|].
  destruct IH as [IHall IHsleep].
  rewrite Htr. simpl. rewrite !List.filter_app, HnoAll, HnoSleep, IHsleep.
  simpl. rewrite IHall. split; reflexivity.
Qed.

Lemma acquireLoop_fuel fuel1 fuel2 ip numErrs lease err w :
  (Z.to_nat (AcquireSubnetLeaseAttempts c - numErrs) ≤ fuel1)%nat →
  (Z.to_nat (AcquireSubnetLeaseAttempts c - numErrs) ≤ fuel2)%nat →
  acquireLoop ParseCIDR c fuel1 ip numErrs lease err w
  = acquireLoop ParseCIDR c fuel2 ip numErrs lease err w.
Proof.
  revert fuel2 numErrs lease err w.
  induction fuel1 as [|fuel1 IH]; intros fuel2 numErrs lease err w H1 H2.
  - destruct fuel2 as [|fuel2]; [reflexivity|]. simpl.
    destruct (numErrs <? AcquireSubnetLeaseAttempts c) eqn:Hlt;
      [lia|reflexivity].
  - simpl. destruct (numErrs <? AcquireSubnetLeaseAttempts c) eqn:Hlt.
    + destruct fuel2 as [|fuel2]; [lia|]. simpl. rewrite Hlt.
      unfold_prog.
      destruct (tryAcquireLease ParseCIDR ip w) as [[[l e] w1] t]. simpl.
      destruct e; [|reflexivity].
      rewrite (IH fuel2) by lia. reflexivity.
    + destruct fuel2 as [|fuel2]; [reflexivity|]. simpl. rewrite Hlt.
      reflexivity.
Qed.

Lemma acquireLoop_exhausted fuel ip numErrs lease err w :
  fuel = Z.to_nat (AcquireSubnetLeaseAttempts c - numErrs) →
  Forall failedAttempt (attemptRuns ParseCIDR fuel ip w).1 →
  acquireLoop ParseCIDR c fuel ip numErrs lease err w
  = (List.last (map fst (attemptRuns ParseCIDR fuel ip w).1) (lease, err),
     (attemptRuns ParseCIDR fuel ip w).2,
     List.concat (map snd (attemptRuns ParseCIDR fuel ip w).1)).
Proof.
  revert numErrs lease err w.
  induction fuel as [|fuel IH]; intros numErrs lease err w Hfuel Hall;
    [reflexivity|].
  simpl in *.
  destruct (numErrs <? AcquireSubnetLeaseAttempts c) eqn:Hlt; [|lia].
  unfold_prog.
  destruct (tryAcquireLease ParseCIDR ip w) as [[[l e] w1] t]. simpl.
  specialize (IH (numErrs + 1) l e w1).
  destruct (attemptRuns ParseCIDR fuel ip w1) as [rs w2]. simpl in *.
  inversion Hall as [|? ? Hr Hrs]; subst.
  destruct e as [msg|]; [|exfalso; apply Hr; reflexivity].
  rewrite IH by (assumption || lia).
  repeat f_equal. symmetry.
  exact (last_cons_default (l, Some msg) (lease, err) (map fst rs)).
Qed.

(** C3. With no lease found, if every attempt fails then
    [AcquireSubnetLease] makes exactly [AcquireSubnetLeaseAttempts]
    attempts (none when the bound is not positive), whatever made each
    of them fail; each attempt starts by reading the list of leases
    again, so the list is read exactly that many times; nothing sleeps in
    between; and, once an attempt was made, the result is no lease and
    the error of the last attempt. *)
Theorem AcquireSubnetLease_exhausts_attempts ip w e0 w1 :
  LeaseForUnderlayIP ip w = ((None, e0), w1) →
  let runs := attemptRuns ParseCIDR
                (Z.to_nat (AcquireSubnetLeaseAttempts c)) ip w1 in
  Forall failedAttempt runs.1 →
  ∃ tr,
    AcquireSubnetLease ParseCIDR c ip w
    = (List.last (map fst runs.1) (None, e0), runs.2,
       CallLeaseForUnderlayIP ip None e0 :: tr) ∧
    tr = List.concat (map snd runs.1) ∧
    Z.of_nat (List.length runs.1) = Z.max 0 (AcquireSubnetLeaseAttempts c) ∧
    Forall attemptShape runs.1 ∧
    Z.of_nat (List.length (List.filter isAll tr))
    = Z.max 0 (AcquireSubnetLeaseAttempts c) ∧
    List.filter isSleep tr = [] ∧
    (0 < AcquireSubnetLeaseAttempts c →
     ∃ init msg t,
       runs.1 = init ++ [((None, Some msg), t)] ∧
       (AcquireSubnetLease ParseCIDR c ip w).1.1 = (None, Some msg)).
Proof.
  intros Hlookup runs Hall.
  pose proof (attemptRuns_length
    (Z.to_nat (AcquireSubnetLeaseAttempts c)) ip w1) as Hlen. fold runs in Hlen.
  pose proof (attemptRuns_shape
    (Z.to_nat (AcquireSubnetLeaseAttempts c)) ip w1) as Hshape.
  fold runs in Hshape.
  destruct (attempts_count runs.1 Hshape) as [Hcount Hsleep].
  assert (Hrun : AcquireSubnetLease ParseCIDR c ip w
    = (List.last (map fst runs.1) (None, e0), runs.2,
       CallLeaseForUnderlayIP ip None e0 :: List.concat (map snd runs.1))).
  { unfold AcquireSubnetLease. unfold_prog. rewrite Hlookup. simpl.
    rewrite acquireLoop_exhausted; [reflexivity|f_equal; lia|assumption]. }
  exists (List.concat (map snd runs.1)).
  split; [exact Hrun|]. split; [reflexivity|]. split; [lia|].
  split; [exact Hshape|]. split; [lia|]. split; [exact Hsleep|].
  intros Hpos.
  assert (Hne : runs.1 ≠ []).
  { intros Hnil. rewrite Hnil in Hlen. simpl in Hlen. lia. }
  destruct (last_snoc_default ((None, None), []) runs.1 Hne)
    as (init & [[l e] t] & Hrs & Hlast).
  assert (He : failedAttempt ((l, e), t)).
  { rewrite Forall_forall in Hall. apply Hall. rewrite Hrs.
    apply list_elem_of_In, in_app_iff. right. left. reflexivity. }
  assert (Hl : attemptShape ((l, e), t)).
  { rewrite Forall_forall in Hshape. apply Hshape. rewrite Hrs.
    apply list_elem_of_In, in_app_iff. right. left. reflexivity. }
  destruct Hl as (_ & _ & _ & _ & _ & _ & Hnil).
  unfold failedAttempt in He. simpl in He, Hnil.
  destruct e as [msg|]; [|exfalso; apply He; reflexivity].
  rewrite (Hnil He) in *.
  exists init, msg, t. split; [exact Hrs|].
  rewrite Hrun. simpl. rewrite Hrs, map_app. simpl.
  apply last_last.
Qed.

End LeaseControllerFacts.

(** ** Concrete runs of the lease controller *)

Lemma tryAcquireLease_returns_inserted_lease_witness :
  let l := {| controller.UnderlayIP := "10.244.5.6";
              controller.OverlaySubnet := "10.255.1.0/24";
              controller.OverlayHardwareAddr := "ee:ee:0a:ff:01:00" |} in
  tryAcquireLease fakes.ParseCIDR "10.244.5.6" fakes.emptyWorld
  = ((Some l, None), fakes.setRows fakes.emptyWorld [l],
     [CallAll [] None;
      CallGetAvailable [] "10.255.1.0/24" None;
      CallGenerateForVTEP [10; 255; 1; 0] [238; 238; 10; 255; 1; 0] None;
      CallAddEntry l None])
  ∧ ∃ subnet vtepIP hwAddr,
      fakes.ParseCIDR subnet = (vtepIP, None) ∧
      Some l = Some {| controller.UnderlayIP := "10.244.5.6";
                       controller.OverlaySubnet := subnet;
                       controller.OverlayHardwareAddr :=
                         net.HardwareAddr_String hwAddr |}.
Proof.
  intros l.
  assert (Hrun : tryAcquireLease fakes.ParseCIDR "10.244.5.6" fakes.emptyWorld
    = ((Some l, None), fakes.setRows fakes.emptyWorld [l],
       [CallAll [] None;
        CallGetAvailable [] "10.255.1.0/24" None;
        CallGenerateForVTEP [10; 255; 1; 0] [238; 238; 10; 255; 1; 0] None;
        CallAddEntry l None])) by reflexivity.
  split; [exact Hrun|].
  destruct (tryAcquireLease_returns_inserted_lease fakes.ParseCIDR
              "10.244.5.6" fakes.emptyWorld _ _ _ Hrun)
    as (leases & subnet & vtepIP & hwAddr & w1 & w2 & w3 & H).
  simpl in H. destruct H as (_ & _ & Hparse & _ & _ & Hr & _).
  exists subnet, vtepIP, hwAddr. split; [exact Hparse|exact Hr].
Defined.

Lemma AcquireSubnetLease_renews_witness :
  let l := {| controller.UnderlayIP := "10.244.0.2";
              controller.OverlaySubnet := "10.255.2.0/24";
              controller.OverlayHardwareAddr := "ee:ee:0a:ff:02:00" |} in
  LeaseForUnderlayIP "10.244.0.2" fullWorld = ((Some l, None), fullWorld)
  ∧ AcquireSubnetLease fakes.ParseCIDR (fakes.config 10) "10.244.0.2" fullWorld
    = ((Some l, None), fullWorld,
       [CallLeaseForUnderlayIP "10.244.0.2" (Some l) None;
        CallLogInfo "lease-renewed" [("lease", LLease (Some l))]]).
Proof.
  intros l. split; [reflexivity|].
  apply (AcquireSubnetLease_renews fakes.ParseCIDR (fakes.config 10)
           "10.244.0.2" fullWorld l None fullWorld).
  reflexivity.
Defined.

Lemma AcquireSubnetLease_no_attempts_witness :
  AcquireSubnetLeaseAttempts (fakes.config 0) ≤ 0
  ∧ LeaseForUnderlayIP "10.244.5.6" fakes.emptyWorld
    = ((None, None), fakes.emptyWorld)
  ∧ AcquireSubnetLease fakes.ParseCIDR (fakes.config 0) "10.244.5.6"
      fakes.emptyWorld
    = ((None, None), fakes.emptyWorld,
       [CallLeaseForUnderlayIP "10.244.5.6" None None]).
Proof.
  split; [simpl; lia|]. split; [reflexivity|].
  apply (AcquireSubnetLease_no_attempts fakes.ParseCIDR (fakes.config 0)
           "10.244.5.6" fakes.emptyWorld None fakes.emptyWorld).
  - simpl. lia.
  - reflexivity.
Defined.

Lemma AcquireSubnetLease_exhausts_attempts_witness :
  LeaseForUnderlayIP "10.244.5.6" fullWorld = ((None, None), fullWorld)
  ∧ Forall failedAttempt (attemptRuns fakes.ParseCIDR 3 "10.244.5.6" fullWorld).1
  ∧ 0 < AcquireSubnetLeaseAttempts (fakes.config 3)
  ∧ ∃ tr,
      AcquireSubnetLease fakes.ParseCIDR (fakes.config 3) "10.244.5.6" fullWorld
      = ((None, Some "get available subnet: no subnets available"), fullWorld,
         CallLeaseForUnderlayIP "10.244.5.6" None None :: tr)
      ∧ Z.of_nat (List.length (List.filter isAll tr)) = 3
      ∧ List.filter isSleep tr = []
      ∧ ∃ init msg t,
          (attemptRuns fakes.ParseCIDR 3 "10.244.5.6" fullWorld).1
          = init ++ [((None, Some msg), t)]
          ∧ (AcquireSubnetLease fakes.ParseCIDR (fakes.config 3) "10.244.5.6"
               fullWorld).1.1 = (None, Some msg).
Proof.
  assert (Hall : Forall failedAttempt
            (attemptRuns fakes.ParseCIDR 3 "10.244.5.6" fullWorld).1).
  { vm_compute. repeat constructor; discriminate. }
  assert (Hlookup : LeaseForUnderlayIP "10.244.5.6" fullWorld
                    = ((None, None), fullWorld)) by reflexivity.
  assert (Hpos : 0 < AcquireSubnetLeaseAttempts (fakes.config 3))
    by (simpl; lia).
  split; [exact Hlookup|]. split; [exact Hall|]. split; [exact Hpos|].
  destruct (AcquireSubnetLease_exhausts_attempts fakes.ParseCIDR
              (fakes.config 3) "10.244.5.6" fullWorld None fullWorld
              Hlookup Hall)
    as (tr & Hrun & _ & _ & _ & Hcount & Hsleep & Hlast).
  exists tr. split; [exact Hrun|]. split; [exact Hcount|].
  split; [exact Hsleep|]. exact (Hlast Hpos).
Defined.

Lemma TryMigrations_retries_witness :
  let flaky := migratingWorld
                 [(0, Some "connection refused"); (0, Some "timeout")]
                 (4, None) in
  let down := migratingWorld [] (0, Some "connection refused") in
  TryMigrations (fakes.config 3) flaky
  = (None, migratingWorld [] (4, None),
     [CallMigrate 0 (Some "connection refused"); CallSleep 1000000000;
      CallMigrate 0 (Some "timeout"); CallSleep 1000000000;
      CallMigrate 4 None;
      CallLogInfo "db-migration-complete" [("num-applied", LInt 4)]])
  ∧ 0 < MaxMigrationAttempts (fakes.config 3)
  ∧ ∃ tr,
      TryMigrations (fakes.config 3) down
      = (Some "creating table: connection refused", down, tr)
      ∧ Z.of_nat (List.length (List.filter isMigrate tr)) = 3
      ∧ ∃ init n msg,
          (migrateRuns 3 down).1 = init ++ [(n, Some msg)]
          ∧ (TryMigrations (fakes.config 3) down).1.1
            = Some ("creating table: " +:+ msg).
Proof.
  intros flaky down. split.
  - assert (Hlt : Z.of_nat 2 < MaxMigrationAttempts (fakes.config 3))
      by (simpl; lia).
    assert (Hall : Forall failed (migrateRuns 2 flaky).1)
      by (vm_compute; repeat constructor; discriminate).
    assert (Hok : Migrate (migrateRuns 2 flaky).2
                  = ((4, None), migratingWorld [] (4, None)))
      by reflexivity.
    exact (proj1 (TryMigrations_retries (fakes.config 3) flaky) 2%nat 4
             (migratingWorld [] (4, None)) Hlt Hall Hok).
  - assert (Hpos : 0 < MaxMigrationAttempts (fakes.config 3))
      by (simpl; lia).
    split; [exact Hpos|].
    destruct (proj2 (TryMigrations_retries (fakes.config 3) down))
      as (tr & Hrun & _ & Hcount & Hlast).
    + vm_compute. repeat constructor; discriminate.
    + exists tr. split; [exact Hrun|]. split; [exact Hcount|].
      exact (Hlast Hpos).
Defined.

Lemma TryMigrations_logs_count_witness :
  let flaky := migratingWorld [(0, Some "timeout")] (4, None) in
  TryMigrations (fakes.config 3) flaky
  = (None, migratingWorld [] (4, None),
     [CallMigrate 0 (Some "timeout"); CallSleep 1000000000;
      CallMigrate 4 None;
      CallLogInfo "db-migration-complete" [("num-applied", LInt 4)]])
  ∧ ∃ n tr0,
      [CallMigrate 0 (Some "timeout"); CallSleep 1000000000;
       CallMigrate 4 None;
       CallLogInfo "db-migration-complete" [("num-applied", LInt 4)]]
      = tr0 ++ [CallMigrate n None;
                CallLogInfo "db-migration-complete" [("num-applied", LInt n)]].
Proof.
  intros flaky.
  assert (Hrun : TryMigrations (fakes.config 3) flaky
    = (None, migratingWorld [] (4, None),
       [CallMigrate 0 (Some "timeout"); CallSleep 1000000000;
        CallMigrate 4 None;
        CallLogInfo "db-migration-complete" [("num-applied", LInt 4)]]))
    by reflexivity.
  split; [exact Hrun|].
  destruct (TryMigrations_logs_count (fakes.config 3) flaky _ _ Hrun)
    as (n & w0 & tr0 & _ & Htr).
  exists n, tr0. exact Htr.
Defined.

(** C5, as stated, fails: the value returned is [nil] whether three or
    seven changes were applied; the count is in the log only. *)
Lemma TryMigrations_count_not_returned :
  let three := migratingWorld [] (3, None) in
  let seven := migratingWorld [] (7, None) in
  (TryMigrations (fakes.config 5) three).1.1 = None
  ∧ (TryMigrations (fakes.config 5) seven).1.1 = None
  ∧ (TryMigrations (fakes.config 5) three).2
    = [CallMigrate 3 None;
       CallLogInfo "db-migration-complete" [("num-applied", LInt 3)]]
  ∧ (TryMigrations (fakes.config 5) seven).2
    = [CallMigrate 7 None;
       CallLogInfo "db-migration-complete" [("num-applied", LInt 7)]]
  ∧ ¬ ∃ count : error → Z,
        count (TryMigrations (fakes.config 5) three).1.1 = 3
        ∧ count (TryMigrations (fakes.config 5) seven).1.1 = 7.
Proof.
  intros three seven. repeat split.
  intros (count & H3 & H7).
  change ((TryMigrations (fakes.config 5) three).1.1) with (@None string) in H3.
  change ((TryMigrations (fakes.config 5) seven).1.1) with (@None string) in H7.
  rewrite H3 in H7. discriminate.
Qed.

(** C6, at its failing input: the lookup fails with "banana", the first
    attempt succeeds, and [AcquireSubnetLease] returns the new lease and
    no error; the lookup's error reaches neither the caller nor the
    log. *)
Theorem AcquireSubnetLease_drops_lookup_error :
  AcquireSubnetLease fakes.ParseCIDR (fakes.config 10) "10.244.5.6"
    brokenLookupWorld
  = ((Some {| controller.UnderlayIP := "10.244.5.6";
              controller.OverlaySubnet := "10.255.1.0/24";
              controller.OverlayHardwareAddr := "ee:ee:0a:ff:01:00" |}, None),
     fakes.setRows brokenLookupWorld
       [{| controller.UnderlayIP := "10.244.5.6";
           controller.OverlaySubnet := "10.255.1.0/24";
           controller.OverlayHardwareAddr := "ee:ee:0a:ff:01:00" |}],
     [CallLeaseForUnderlayIP "10.244.5.6" None (Some "banana");
      CallAll [] None;
      CallGetAvailable [] "10.255.1.0/24" None;
      CallGenerateForVTEP [10; 255; 1; 0] [238; 238; 10; 255; 1; 0] None;
      CallAddEntry
        {| controller.UnderlayIP := "10.244.5.6";
           controller.OverlaySubnet := "10.255.1.0/24";
           controller.OverlayHardwareAddr := "ee:ee:0a:ff:01:00" |} None;
      CallLogInfo "lease-acquired"
        [("lease",
          LLease (Some {| controller.UnderlayIP := "10.244.5.6";
                          controller.OverlaySubnet := "10.255.1.0/24";
                          controller.OverlayHardwareAddr :=
                            "ee:ee:0a:ff:01:00" |}))]]).
Proof. reflexivity. Qed.

(** * Properties of the veth manager *)

Section VethFacts.
Variable ParseAddr : string → string + Addr.
Variable IPString : net.IP → string.
Variable generateHostName : (string → bool) → string.

(** ** Running kernel operations *)

Lemma K_bind_inr {A B : Type} (m : K A) (f : A → K B) k a k1 :
  m k = (inr a, k1) → (m ≫= f) k = f a k1.
Proof. intros H. unfold mbind, K_bind. rewrite H. reflexivity. Qed.

Lemma K_bind_inl {A B : Type} (m : K A) (f : A → K B) k e k1 :
  m k = (inl e, k1) → (m ≫= f) k = (inl e, k1).
Proof. intros H. unfold mbind, K_bind. rewrite H. reflexivity. Qed.

Lemma wrap_inr {A : Type} ctx (m : K A) k a k1 :
  m k = (inr a, k1) → wrap ctx m k = (inr a, k1).
Proof. intros H. unfold wrap. rewrite H. reflexivity. Qed.

Lemma wrap_inl {A : Type} ctx (m : K A) k e k1 :
  m k = (inl e, k1) → wrap ctx m k = (inl (ctx +:+ ": " +:+ e), k1).
Proof. intros H. unfold wrap. rewrite H. reflexivity. Qed.

Lemma LinkByName_run ns name k l :
  links k !! (ns, name) = Some l → LinkByName ns name k = (inr l, k).
Proof. intros H. unfold LinkByName. rewrite H. reflexivity. Qed.

Lemma AddrDel_run ns name a k l r :
  links k !! (ns, name) = Some l →
  removeAddr a (Addrs l) = Some r →
  AddrDel ns name a k
  = (inr tt,
     setLinks k (<[(ns, name) := {| MTU := MTU l; Addrs := r |}]> (links k))).
Proof.
  intros Hl Hr. unfold AddrDel.
  rewrite (K_bind_inr _ _ _ _ _ (LinkByName_run _ _ _ _ Hl)), Hr.
  reflexivity.
Qed.

Lemma AddrAdd_run ns name a k l :
  links k !! (ns, name) = Some l →
  existsb (sameIPNet a) (Addrs l) = false →
  AddrAdd ns name a k
  = (inr tt,
     setLinks k
       (<[(ns, name) := {| MTU := MTU l; Addrs := Addrs l ++ [a] |}]>
          (links k))).
Proof.
  intros Hl Hnew. unfold AddrAdd.
  rewrite (K_bind_inr _ _ _ _ _ (LinkByName_run _ _ _ _ Hl)), Hnew.
  reflexivity.
Qed.

(** ** Removing the IPv6 addresses *)

Lemma removeAll_skip a ds l :
  Forall (λ d, d ≠ a) ds →
  removeAll ds (a :: l) = cons a <$> removeAll ds l.
Proof.
  revert l. induction ds as [|d ds IH]; intros l Hds; [reflexivity|].
  inversion Hds as [|? ? Hd Hrest]; subst. simpl.
  rewrite bool_decide_eq_false_2 by assumption.
  destruct (removeAddr d l) as [l'|]; [|reflexivity].
  apply IH. assumption.
Qed.

Lemma removeAll_filter l :
  removeAll (List.filter isIPv6 l) l
  = Some (List.filter (λ a, negb (isIPv6 a)) l).
Proof.
  induction l as [|a l IH]; [reflexivity|]. simpl.
  destruct (isIPv6 a) eqn:Ha; simpl.
  - rewrite bool_decide_eq_true_2 by reflexivity. exact IH.
  - rewrite removeAll_skip, IH; [reflexivity|].
    apply Forall_forall. intros d Hd Heq. subst d.
    apply list_elem_of_In, filter_In in Hd. destruct Hd as [_ Hd]. congruence.
Qed.

Lemma filter_keepIPv4 l :
  List.filter isIPv6 (List.filter (λ a, negb (isIPv6 a)) l) = [].
Proof.
  induction l as [|a l IH]; [reflexivity|]. simpl.
  destruct (isIPv6 a) eqn:Ha; simpl; [exact IH|]. rewrite Ha. exact IH.
Qed.

Lemma forEach_AddrDel ns name ds k l r :
  links k !! (ns, name) = Some l →
  removeAll ds (Addrs l) = Some r →
  ∃ k',
    forEach (AddrDel ns name) ds k = (inr tt, k') ∧
    namespaces k' = namespaces k ∧
    links k' = <[(ns, name) := {| MTU := MTU l; Addrs := r |}]> (links k).
Proof.
  revert k l. induction ds as [|d ds IH]; intros k l Hl Hr; simpl in *.
  - injection Hr as <-. exists k. repeat split.
    destruct l. simpl. symmetry. apply insert_id. assumption.
  - destruct (removeAddr d (Addrs l)) as [r1|] eqn:Hd; [|discriminate].
    rewrite (K_bind_inr _ _ _ _ _ (AddrDel_run _ _ _ _ _ _ Hl Hd)).
    set (k1 := setLinks k
                 (<[(ns, name) := {| MTU := MTU l; Addrs := r1 |}]> (links k))).
    destruct (IH k1 {| MTU := MTU l; Addrs := r1 |}) as (k' & Hrun & Hns & Hlinks).
    { simpl. apply lookup_insert_eq. }
    { simpl. exact Hr. }
    exists k'. split; [exact Hrun|]. split; [exact Hns|].
    rewrite Hlinks. simpl. apply insert_insert_eq.
Qed.

Lemma removeIPv6_run e k l :
  links k !! key e = Some l →
  ∃ k',
    removeIPv6 e k = (inr tt, k') ∧
    namespaces k' = namespaces k ∧
    links k' = <[key e := keepIPv4 l]> (links k).
Proof.
  intros Hl. unfold removeIPv6, key in *.
  destruct (forEach_AddrDel (Namespace e) (LinkName e)
              (List.filter isIPv6 (Addrs l)) k l _ Hl (removeAll_filter _))
    as (k' & Hrun & Hns & Hlinks).
  exists k'. split; [|split; assumption].
  unfold AddrList.
  rewrite (K_bind_inr _ _ k (List.filter isIPv6 (Addrs l)) k); [exact Hrun|].
  rewrite (K_bind_inr _ _ _ _ _ (LinkByName_run _ _ _ _ Hl)). reflexivity.
Qed.

Lemma removeIPv6_noop e k l :
  links k !! key e = Some l →
  List.filter isIPv6 (Addrs l) = [] →
  removeIPv6 e k = (inr tt, k).
Proof.
  intros Hl Hnone. unfold removeIPv6, key in *.
  unfold AddrList.
  rewrite (K_bind_inr _ _ k (List.filter isIPv6 (Addrs l)) k).
  - simpl. rewrite Hnone. reflexivity.
  - rewrite (K_bind_inr _ _ _ _ _ (LinkByName_run _ _ _ _ Hl)). reflexivity.
Qed.

Lemma noIPv6_after e e' k k' l :
  links k !! key e = Some l →
  links k' = <[key e := keepIPv4 l]> (links k) →
  (key e' = key e ∨ noIPv6 e' k) →
  is_Some (links k !! key e') →
  noIPv6 e' k'.
Proof.
  intros Hl Hlinks Hcase [l' Hl']. unfold noIPv6, addrsOf in *.
  rewrite Hlinks.
  destruct (decide (key e = key e')) as [Heq|Hne].
  - rewrite <- Heq, lookup_insert_eq. simpl.
    rewrite filter_keepIPv4. reflexivity.
  - rewrite lookup_insert_ne by assumption.
    destruct Hcase as [Heq|Hno]; [congruence|]. exact Hno.
Qed.

(** C9. On a pair whose two links exist, [disableIPv6] succeeds
    whatever addresses the links carry; afterwards the IPv6 addresses
    listed on either end are none; a second call succeeds and changes
    nothing; and when no IPv6 address was there in the first place the
    kernel is left as it was. *)
Theorem disableIPv6_removes_all p k :
  is_Some (links k !! key (Host p)) →
  is_Some (links k !! key (Container p)) →
  ∃ k',
    disableIPv6 p k = (inr tt, k') ∧
    addrsOf (Host p) FAMILY_V6 k' = Some [] ∧
    addrsOf (Container p) FAMILY_V6 k' = Some [] ∧
    disableIPv6 p k' = (inr tt, k') ∧
    (addrsOf (Host p) FAMILY_V6 k = Some [] →
     addrsOf (Container p) FAMILY_V6 k = Some [] →
     k' = k).
Proof.
  intros [lh Hlh] Hc.
  destruct (removeIPv6_run (Host p) k lh Hlh) as (k1 & Hrun1 & Hns1 & Hlinks1).
  assert (Hc1 : is_Some (links k1 !! key (Container p))).
  { rewrite Hlinks1.
    destruct (decide (key (Host p) = key (Container p))) as [Heq|Hne].
    - rewrite <- Heq, lookup_insert_eq. eauto.
    - rewrite lookup_insert_ne by assumption. exact Hc. }
  destruct Hc1 as [lc Hlc].
  destruct (removeIPv6_run (Container p) k1 lc Hlc)
    as (k2 & Hrun2 & Hns2 & Hlinks2).
  assert (Hh1 : noIPv6 (Host p) k1).
  { apply (noIPv6_after (Host p) (Host p) k k1 lh Hlh Hlinks1);
      [left; reflexivity|exists lh; exact Hlh]. }
  assert (Hh1' : is_Some (links k1 !! key (Host p))).
  { rewrite Hlinks1, lookup_insert_eq. eexists; reflexivity. }
  assert (Hh2 : noIPv6 (Host p) k2).
  { apply (noIPv6_after (Container p) (Host p) k1 k2 lc Hlc Hlinks2);
      [right; exact Hh1|exact Hh1']. }
  assert (Hc2 : noIPv6 (Container p) k2).
  { apply (noIPv6_after (Container p) (Container p) k1 k2 lc Hlc Hlinks2);
      [left; reflexivity|exists lc; exact Hlc]. }
  assert (Hnoop : ∀ k0, noIPv6 (Host p) k0 → noIPv6 (Container p) k0 →
                        disableIPv6 p k0 = (inr tt, k0)).
  { intros k0 Hh0 Hc0. unfold noIPv6, addrsOf in Hh0, Hc0.
    destruct (links k0 !! key (Host p)) as [l0|] eqn:Hl0; [|discriminate].
    destruct (links k0 !! key (Container p)) as [l0'|] eqn:Hl0';
      [|discriminate].
    unfold disableIPv6.
    rewrite (K_bind_inr _ _ k0 tt k0).
    + apply (removeIPv6_noop (Container p) k0 l0' Hl0').
      injection Hc0 as Hc0. exact Hc0.
    + apply (removeIPv6_noop (Host p) k0 l0 Hl0).
      injection Hh0 as Hh0. exact Hh0. }
  exists k2. split; [|split; [exact Hh2|split; [exact Hc2|split]]].
  - unfold disableIPv6. rewrite (K_bind_inr _ _ _ _ _ Hrun1). exact Hrun2.
  - apply Hnoop; assumption.
  - intros Hh0 Hc0.
    pose proof (Hnoop k Hh0 Hc0) as Hsame.
    unfold disableIPv6 in Hsame.
    rewrite (K_bind_inr _ _ _ _ _ Hrun1), Hrun2 in Hsame. congruence.
Qed.

(** ** Creating the pair *)

Lemma exists_link_true ns name k :
  is_Some (links k !! (ns, name)) → exists_link ns name k = true.
Proof. intros H. unfold exists_link. apply bool_decide_eq_true_2, H. Qed.

Lemma exists_link_false ns name k :
  links k !! (ns, name) = None → exists_link ns name k = false.
Proof.
  intros H. unfold exists_link. apply bool_decide_eq_false_2.
  rewrite H. apply is_Some_None.
Qed.

(** C8. When the container namespace already has a link of the
    requested name, [createPair] fails with the message that names the
    interface and says that it already exists, and the kernel is left
    as it was: no device is created. *)
Theorem createPair_name_collision m ifname mtu k :
  is_Some (links k !! (ContainerNS m, ifname)) →
  createPair generateHostName m ifname mtu k
  = (inl ("container veth name provided (" +:+ ifname
          +:+ ") already exists"), k).
Proof.
  intros Hex. unfold createPair.
  rewrite exists_link_true by assumption. reflexivity.
Qed.

(** Otherwise, when the generated host-side name is free as well, both
    links are created, without addresses. *)
Lemma createPair_creates m ifname mtu k :
  let hostName := generateHostName (λ n, exists_link (HostNS m) n k) in
  links k !! (ContainerNS m, ifname) = None →
  links k !! (HostNS m, hostName) = None →
  (ContainerNS m, ifname) ≠ (HostNS m, hostName) →
  ∃ k',
    createPair generateHostName m ifname mtu k
    = (inr {| Host := {| LinkName := hostName; Namespace := HostNS m |};
              Container := {| LinkName := ifname;
                              Namespace := ContainerNS m |} |}, k') ∧
    links k' !! (ContainerNS m, ifname) = Some {| MTU := mtu; Addrs := [] |} ∧
    links k' !! (HostNS m, hostName) = Some {| MTU := mtu; Addrs := [] |}.
Proof.
  intros hostName Hc Hh Hne. unfold createPair.
  rewrite exists_link_false by assumption.
  fold hostName. unfold wrap, CreateVeth, mbind, K_bind.
  rewrite !exists_link_false by assumption.
  rewrite bool_decide_eq_false_2 by assumption. simpl.
  eexists. split; [reflexivity|]. simpl. split.
  - apply lookup_insert_eq.
  - rewrite lookup_insert_ne by assumption. apply lookup_insert_eq.
Qed.

(** ** Assigning the addresses *)

Lemma setPointToPointAddress_run e loc peer k a b l :
  ParseAddr loc = inr a →
  ParseAddr peer = inr b →
  links k !! key e = Some l →
  existsb (sameIPNet (pointToPoint a b)) (Addrs l) = false →
  setPointToPointAddress ParseAddr e loc peer k
  = (inr tt,
     setLinks k
       (<[key e := {| MTU := MTU l;
                      Addrs := Addrs l ++ [pointToPoint a b] |}]> (links k))).
Proof.
  intros Ha Hb Hl Hnew. unfold setPointToPointAddress, key in *.
  rewrite (K_bind_inr _ _ k a k)
    by (apply wrap_inr; unfold parseAddr; rewrite Ha; reflexivity).
  rewrite (K_bind_inr _ _ k b k)
    by (apply wrap_inr; unfold parseAddr; rewrite Hb; reflexivity).
  rewrite (K_bind_inr _ _ k l k)
    by (apply wrap_inr, LinkByName_run; assumption).
  apply wrap_inr. apply AddrAdd_run; assumption.
Qed.

Lemma setPointToPointAddress_parse_loc e loc peer k msg :
  ParseAddr loc = inl msg →
  ∃ m, setPointToPointAddress ParseAddr e loc peer k = (inl m, k).
Proof.
  intros Ha. unfold setPointToPointAddress. eexists.
  apply K_bind_inl. apply wrap_inl. unfold parseAddr. rewrite Ha.
  reflexivity.
Qed.

Lemma setPointToPointAddress_parse_peer e loc peer k a msg :
  ParseAddr loc = inr a →
  ParseAddr peer = inl msg →
  ∃ m, setPointToPointAddress ParseAddr e loc peer k = (inl m, k).
Proof.
  intros Ha Hb. unfold setPointToPointAddress. eexists.
  rewrite (K_bind_inr _ _ k a k)
    by (apply wrap_inr; unfold parseAddr; rewrite Ha; reflexivity).
  apply K_bind_inl. apply wrap_inl. unfold parseAddr. rewrite Hb.
  reflexivity.
Qed.

(** [assignIP] adds one address on each side and removes none. *)
Lemma assignIP_appends p ip k lh lc ah ac :
  key (Host p) ≠ key (Container p) →
  links k !! key (Host p) = Some lh →
  links k !! key (Container p) = Some lc →
  ParseAddr hostAddress = inr ah →
  ParseAddr (IPString ip +:+ "/32") = inr ac →
  existsb (sameIPNet (pointToPoint ah ac)) (Addrs lh) = false →
  existsb (sameIPNet (pointToPoint ac ah)) (Addrs lc) = false →
  ∃ k',
    assignIP ParseAddr IPString p ip k = (inr tt, k') ∧
    addrsOf (Host p) FAMILY_ALL k'
    = Some (List.filter (inFamily FAMILY_ALL) (Addrs lh ++ [pointToPoint ah ac])) ∧
    addrsOf (Container p) FAMILY_ALL k'
    = Some (List.filter (inFamily FAMILY_ALL) (Addrs lc ++ [pointToPoint ac ah])).
Proof.
  intros Hne Hlh Hlc Hah Hac Hnewh Hnewc. unfold assignIP.
  rewrite (K_bind_inr _ _ _ _ _
             (setPointToPointAddress_run _ _ _ _ _ _ _ Hah Hac Hlh Hnewh)).
  erewrite setPointToPointAddress_run; [|eassumption|eassumption| |eassumption].
  2: { simpl. rewrite lookup_insert_ne by assumption. exact Hlc. }
  eexists. split; [reflexivity|]. unfold addrsOf. simpl. split.
  - rewrite lookup_insert_ne by congruence. rewrite lookup_insert_eq.
    reflexivity.
  - rewrite lookup_insert_eq. reflexivity.
Qed.

(** On a pair of two distinct links that carry no address yet, a
    successful [assignIP] leaves exactly one address on each end: on the
    host end the parsed ["169.254.0.1/32"] with the parsed container
    address as peer, on the container end the converse, both with link
    scope. *)
Theorem assignIP_point_to_point p ip k k' lh lc :
  key (Host p) ≠ key (Container p) →
  links k !! key (Host p) = Some lh → Addrs lh = [] →
  links k !! key (Container p) = Some lc → Addrs lc = [] →
  assignIP ParseAddr IPString p ip k = (inr tt, k') →
  ∃ ah ac,
    ParseAddr "169.254.0.1/32" = inr ah ∧
    ParseAddr (IPString ip +:+ "/32") = inr ac ∧
    addrsOf (Host p) FAMILY_ALL k'
    = Some [{| IPNet := IPNet ah; Peer := Some (IPNet ac);
               Scope := SCOPE_LINK |}] ∧
    addrsOf (Container p) FAMILY_ALL k'
    = Some [{| IPNet := IPNet ac; Peer := Some (IPNet ah);
               Scope := SCOPE_LINK |}].
Proof.
  intros Hne Hlh Hnoh Hlc Hnoc Hrun.
  destruct (ParseAddr hostAddress) as [msg|ah] eqn:Hah.
  { destruct (setPointToPointAddress_parse_loc (Host p) hostAddress
                (IPString ip +:+ "/32") k msg Hah) as [m Hfail].
    unfold assignIP in Hrun.
    rewrite (K_bind_inl _ _ _ _ _ Hfail) in Hrun. discriminate. }
  destruct (ParseAddr (IPString ip +:+ "/32")) as [msg|ac] eqn:Hac.
  { destruct (setPointToPointAddress_parse_peer (Host p) hostAddress
                (IPString ip +:+ "/32") k ah msg Hah Hac) as [m Hfail].
    unfold assignIP in Hrun.
    rewrite (K_bind_inl _ _ _ _ _ Hfail) in Hrun. discriminate. }
  destruct (assignIP_appends p ip k lh lc ah ac Hne Hlh Hlc Hah Hac)
    as (k2 & Hrun2 & Hh & Hc).
  - rewrite Hnoh. reflexivity.
  - rewrite Hnoc. reflexivity.
  - rewrite Hrun2 in Hrun. injection Hrun as <-.
    rewrite Hnoh in Hh. rewrite Hnoc in Hc.
    exists ah, ac. repeat split; assumption.
Qed.

(** What [createPair] returns when it succeeds: two distinct links, one
    per end, that exist and carry no address. *)
Lemma createPair_result m ifname mtu k p k1 :
  createPair generateHostName m ifname mtu k = (inr p, k1) →
  key (Host p) ≠ key (Container p) ∧
  links k1 !! key (Host p) = Some {| MTU := mtu; Addrs := [] |} ∧
  links k1 !! key (Container p) = Some {| MTU := mtu; Addrs := [] |}.
Proof.
  unfold createPair. intros H.
  destruct (exists_link (ContainerNS m) ifname k) eqn:Hfree; [discriminate|].
  set (hostName := generateHostName (λ n, exists_link (HostNS m) n k)) in *.
  unfold wrap, CreateVeth, mbind, K_bind, mret, K_ret, putLink in H.
  rewrite Hfree in H.
  destruct (exists_link (HostNS m) hostName k); simpl in H; [discriminate|].
  destruct (bool_decide ((ContainerNS m, ifname) = (HostNS m, hostName)))
    eqn:Hsame; simpl in H; [discriminate|].
  apply bool_decide_eq_false_1 in Hsame.
  injection H as <- <-. unfold key. simpl. split; [congruence|]. split.
  - rewrite lookup_insert_ne by assumption. apply lookup_insert_eq.
  - apply lookup_insert_eq.
Qed.


End VethFacts.

(** ** Concrete runs of the veth manager *)

(** Creating the first pair in an empty kernel gives [thePair] in
    [cleanKernel]. *)
Example createPair_first_run :
  createPair vethfakes.generateHostName theManager "eth0" 1500
    vethfakes.emptyKernel
  = (inr thePair, cleanKernel).
Proof. vm_compute. reflexivity. Qed.

Lemma createPair_name_collision_witness :
  is_Some (links cleanKernel !! (ContainerNS theManager, "eth0"))
  ∧ createPair vethfakes.generateHostName theManager "eth0" 1500 cleanKernel
    = (inl "container veth name provided (eth0) already exists", cleanKernel).
Proof.
  assert (Hex : is_Some (links cleanKernel !! (ContainerNS theManager, "eth0")))
    by (exists {| MTU := 1500; Addrs := [] |}; reflexivity).
  split; [exact Hex|].
  exact (createPair_name_collision vethfakes.generateHostName theManager
           "eth0" 1500 cleanKernel Hex).
Defined.

Lemma assignIP_point_to_point_witness :
  let k' := (assignIP vethfakes.ParseAddr vethfakes.IPString thePair
               [10; 255; 4; 5] cleanKernel).2 in
  assignIP vethfakes.ParseAddr vethfakes.IPString thePair [10; 255; 4; 5]
    cleanKernel = (inr tt, k')
  ∧ ∃ h c,
      addrsOf (Host thePair) FAMILY_ALL k' = Some [h] ∧
      addrsOf (Container thePair) FAMILY_ALL k' = Some [c] ∧
      vethfakes.IPNetString (IPNet h) = "169.254.0.1/32" ∧
      vethfakes.IPNetString <$> Peer h = Some "10.255.4.5/32" ∧
      Scope h = SCOPE_LINK ∧
      vethfakes.IPNetString (IPNet c) = "10.255.4.5/32" ∧
      vethfakes.IPNetString <$> Peer c = Some "169.254.0.1/32" ∧
      Scope c = SCOPE_LINK.
Proof.
  intros k'.
  assert (Hrun : assignIP vethfakes.ParseAddr vethfakes.IPString thePair
                   [10; 255; 4; 5] cleanKernel = (inr tt, k'))
    by (vm_compute; reflexivity).
  split; [exact Hrun|].
  assert (Hne : key (Host thePair) ≠ key (Container thePair))
    by (intros H; vm_compute in H; discriminate H).
  assert (Hh : links cleanKernel !! key (Host thePair)
               = Some {| MTU := 1500; Addrs := [] |}) by reflexivity.
  assert (Hc : links cleanKernel !! key (Container thePair)
               = Some {| MTU := 1500; Addrs := [] |}) by reflexivity.
  destruct (assignIP_point_to_point vethfakes.ParseAddr vethfakes.IPString
              thePair [10; 255; 4; 5] cleanKernel k' _ _
              Hne Hh eq_refl Hc eq_refl Hrun)
    as (ah & ac & Hah & Hac & Hhost & Hcont).
  vm_compute in Hah. vm_compute in Hac.
  injection Hah as <-. injection Hac as <-.
  eexists _, _. split; [exact Hhost|]. split; [exact Hcont|].
  repeat split.
Defined.

(** [assignIP] adds to what is there (lemma [assignIP_appends]): on
    links that were given addresses by other means, here two and one
    IPv6 addresses, it succeeds and puts its own address after them. *)
Lemma assignIP_keeps_old_addresses :
  let run := assignIP vethfakes.ParseAddr vethfakes.IPString thePair
               [10; 255; 4; 5] dualStackKernel in
  let assigned ip peer :=
    {| IPNet := {| net.IPNet_IP := ip; net.IPNet_Ones := 32 |};
       Peer := Some {| net.IPNet_IP := peer; net.IPNet_Ones := 32 |};
       Scope := SCOPE_LINK |} in
  run.1 = inr tt
  ∧ addrsOf (Host thePair) FAMILY_ALL run.2
    = Some [linkLocal 1; linkLocal 2;
            assigned [169; 254; 0; 1] [10; 255; 4; 5]]
  ∧ addrsOf (Container thePair) FAMILY_ALL run.2
    = Some [linkLocal 3; assigned [10; 255; 4; 5] [169; 254; 0; 1]].
Proof. vm_compute. repeat split. Qed.

Lemma disableIPv6_removes_all_witness :
  is_Some (links dualStackKernel !! key (Host thePair))
  ∧ is_Some (links dualStackKernel !! key (Container thePair))
  ∧ addrsOf (Host thePair) FAMILY_V6 dualStackKernel
    = Some [linkLocal 1; linkLocal 2]
  ∧ addrsOf (Container thePair) FAMILY_V6 dualStackKernel
    = Some [linkLocal 3]
  ∧ ∃ k',
      disableIPv6 thePair dualStackKernel = (inr tt, k') ∧
      addrsOf (Host thePair) FAMILY_V6 k' = Some [] ∧
      addrsOf (Container thePair) FAMILY_V6 k' = Some [] ∧
      disableIPv6 thePair k' = (inr tt, k').
Proof.
  assert (Hh : is_Some (links dualStackKernel !! key (Host thePair)))
    by (eexists; reflexivity).
  assert (Hc : is_Some (links dualStackKernel !! key (Container thePair)))
    by (eexists; reflexivity).
  split; [exact Hh|]. split; [exact Hc|].
  split; [reflexivity|]. split; [reflexivity|].
  destruct (disableIPv6_removes_all thePair dualStackKernel Hh Hc)
    as (k' & Hrun & Hhost & Hcont & Hagain & _).
  exists k'. repeat split; assumption.
Defined.


(** After [disableIPv6] on the pair with IPv6 addresses the kernel is
    [cleanKernel], on which [assignIP] leaves one address per end. *)
Example disableIPv6_run :
  disableIPv6 thePair dualStackKernel = (inr tt, cleanKernel).
Proof. vm_compute. reflexivity. Qed.

(** * Further properties of the lease controller *)

Section LeaseControllerOutcomes.
Context {W : Type}.
Context `{DB : !databaseHandler W} `{Pool : !cidrPool W}
        `{Gen : !hardwareAddressGenerator W}.
Variable ParseCIDR : string → net.IP * error.
Variable c : LeaseController.

(** ** One attempt *)

(** What an attempt leaves in the call history: only calls to the store,
    the pool and the generator; an insert that succeeded exactly when the
    attempt did, and then of the lease returned. *)
Lemma tryAcquireLease_history ip w :
  let run := tryAcquireLease ParseCIDR ip w in
  forallb attemptCall run.2 = true ∧
  match run.1.1.2 with
  | Some _ => run.1.1.1 = None ∧ List.filter isInserted run.2 = []
  | None =>
      ∃ lease w3,
        run.1.1.1 = Some lease ∧
        controller.UnderlayIP lease = ip ∧
        AddEntry lease w3 = (None, run.1.2) ∧
        List.filter isInserted run.2 = [CallAddEntry lease None]
  end.
Proof.
  unfold tryAcquireLease. unfold_prog.
  destruct (All w) as [[leases e1] w1].
  destruct e1; simpl; [repeat split|].
  destruct (GetAvailable _ w1) as [[subnet e2] w2].
  destruct e2; simpl; [repeat split|].
  destruct (ParseCIDR subnet) as [vtepIP e3].
  destruct e3; simpl; [repeat split|].
  destruct (GenerateForVTEP vtepIP w2) as [[hwAddr e4] w3].
  destruct e4; simpl; [repeat split|].
  destruct (AddEntry _ w3) as [e5 w4] eqn:HAdd.
  destruct e5; simpl; [repeat split|].
  split; [reflexivity|]. eexists _, w3. repeat split. exact HAdd.
Qed.

(** X6. A failed attempt returns no lease, and its error is the text of
    the step that failed followed by the text of the error that step
    returned; the steps after the failing one are not called, so that
    the insert is only reached when the listing, the pool, the parse and
    the generator all succeeded. *)
Theorem tryAcquireLease_failure ip w r msg w' tr :
  tryAcquireLease ParseCIDR ip w = ((r, Some msg), w', tr) →
  r = None ∧
  ∃ leases e,
    (All w = ((leases, Some e), w') ∧
     msg = "getting all subnets: " +:+ e ∧
     tr = [CallAll leases (Some e)])
    ∨
    ∃ w1 subnet,
      let taken := map controller.OverlaySubnet leases in
      All w = ((leases, None), w1) ∧
      ((GetAvailable taken w1 = ((subnet, Some e), w') ∧
        msg = "get available subnet: " +:+ e ∧
        tr = [CallAll leases None; CallGetAvailable taken subnet (Some e)])
       ∨
       ∃ w2 vtepIP,
         GetAvailable taken w1 = ((subnet, None), w2) ∧
         ((ParseCIDR subnet = (vtepIP, Some e) ∧ w' = w2 ∧
           msg = "parse subnet: " +:+ e ∧
           tr = [CallAll leases None; CallGetAvailable taken subnet None])
          ∨
          ParseCIDR subnet = (vtepIP, None) ∧
          ∃ hwAddr,
            (GenerateForVTEP vtepIP w2 = ((hwAddr, Some e), w') ∧
             msg = "generate hardware address: " +:+ e ∧
             tr = [CallAll leases None;
                   CallGetAvailable taken subnet None;
                   CallGenerateForVTEP vtepIP hwAddr (Some e)])
            ∨
            ∃ w3,
              let lease := {|
                controller.UnderlayIP := ip;
                controller.OverlaySubnet := subnet;
                controller.OverlayHardwareAddr :=
                  net.HardwareAddr_String hwAddr
              |} in
              GenerateForVTEP vtepIP w2 = ((hwAddr, None), w3) ∧
              AddEntry lease w3 = (Some e, w') ∧
              msg = "adding lease entry: " +:+ e ∧
              tr = [CallAll leases None;
                    CallGetAvailable taken subnet None;
                    CallGenerateForVTEP vtepIP hwAddr None;
                    CallAddEntry lease (Some e)])).
Proof.
  unfold tryAcquireLease. unfold_prog. intros H.
  destruct (All w) as [[leases e1] w1] eqn:HAll.
  destruct e1 as [m1|]; simpl in H.
  { injection H as <- <- <- <-. split; [reflexivity|].
    exists leases, m1. left. repeat split. }
  destruct (GetAvailable _ w1) as [[subnet e2] w2] eqn:HGet.
  destruct e2 as [m2|]; simpl in H.
  { injection H as <- <- <- <-. split; [reflexivity|].
    exists leases, m2. right. exists w1, subnet. simpl.
    split; [reflexivity|]. left. repeat split. exact HGet. }
  destruct (ParseCIDR subnet) as [vtepIP e3] eqn:HParse.
  destruct e3 as [m3|]; simpl in H.
  { injection H as <- <- <- <-. split; [reflexivity|].
    exists leases, m3. right. exists w1, subnet. simpl.
    split; [reflexivity|]. right. exists w2, vtepIP.
    split; [exact HGet|]. left. repeat split. exact HParse. }
  destruct (GenerateForVTEP vtepIP w2) as [[hwAddr e4] w3] eqn:HGen.
  destruct e4 as [m4|]; simpl in H.
  { injection H as <- <- <- <-. split; [reflexivity|].
    exists leases, m4. right. exists w1, subnet. simpl.
    split; [reflexivity|]. right. exists w2, vtepIP.
    split; [exact HGet|]. right. split; [exact HParse|].
    exists hwAddr. left. repeat split. exact HGen. }
  destruct (AddEntry _ w3) as [e5 w4] eqn:HAdd.
  destruct e5 as [m5|]; simpl in H; [|discriminate].
  injection H as <- <- <- <-. split; [reflexivity|].
  exists leases, m5. right. exists w1, subnet. simpl.
  split; [reflexivity|]. right. exists w2, vtepIP.
  split; [exact HGet|]. right. split; [exact HParse|].
  exists hwAddr. right. exists w3. repeat split; assumption.
Qed.

(** ** The migration loop, whatever the store does *)

(** Among [fuel] calls of [Migrate] in a row either all fail or there is
    a first one that succeeds. *)
Lemma migrateRuns_first_success fuel w :
  ∃ k, (k ≤ fuel)%nat ∧
    Forall failed (migrateRuns k w).1 ∧
    (k = fuel ∨
     (k < fuel)%nat ∧
     ∃ n w', Migrate (migrateRuns k w).2 = ((n, None), w')).
Proof.
  revert w. induction fuel as [|fuel IH]; intros w.
  - exists O. split; [lia|]. split; [constructor|left; reflexivity].
  - destruct (Migrate w) as [[n e] w1] eqn:HM. destruct e as [msg|].
    + destruct (IH w1) as (k & Hk & Hall & Hend).
      exists (S k). simpl. rewrite HM.
      destruct (migrateRuns k w1) as [rs w2] eqn:Hruns. simpl in *.
      split; [lia|]. split.
      * constructor; [discriminate|assumption].
      * destruct Hend as [->|[Hlt Hok]]; [left; reflexivity|].
        right. split; [lia|exact Hok].
    + exists O. simpl. split; [lia|]. split; [constructor|].
      right. split; [lia|]. exists n, w1. exact HM.
Qed.

(** X1. Whatever the store does, the history of [TryMigrations] is a run
    of failed [Migrate] calls, each followed by the configured sleep,
    that ends in one of two ways: with a successful call and its log
    line, before the bound is used up, and then the result is [nil]; or
    with no further entry once max(0, [MaxMigrationAttempts]) calls have
    failed, and then the result is the error built from the last
    failure.  So [Migrate] is never called after it succeeded nor more
    often than the bound, and an error is only returned after all the
    attempts were made. *)
Theorem TryMigrations_outcome w :
  ∃ k,
    let rs := (migrateRuns k w).1 in
    let w' := (migrateRuns k w).2 in
    Forall failed rs ∧
    ((Z.of_nat k < MaxMigrationAttempts c ∧
      ∃ n w'',
        Migrate w' = ((n, None), w'') ∧
        TryMigrations c w
        = (None, w'', flat_map (failedMigration c) rs ++ migrationComplete n))
     ∨
     (Z.of_nat k = Z.max 0 (MaxMigrationAttempts c) ∧
      TryMigrations c w
      = (Errorf "creating table: " (List.last (map snd rs) None), w',
         flat_map (failedMigration c) rs))).
Proof.
  destruct (migrateRuns_first_success (Z.to_nat (MaxMigrationAttempts c)) w)
    as (k & Hk & Hall & Hend).
  exists k. simpl. split; [exact Hall|].
  destruct Hend as [->|[Hlt (n & w'' & Hok)]].
  - right. split; [lia|]. unfold TryMigrations.
    apply migrationLoop_exhausted; [f_equal; lia|exact Hall].
  - left. split; [lia|]. exists n, w''. split; [exact Hok|].
    unfold TryMigrations. apply migrationLoop_completes; (assumption || lia).
Qed.

(** ** The acquisition loop, whatever the collaborators do *)

Lemma attemptRuns_first_success fuel ip w :
  ∃ k, (k ≤ fuel)%nat ∧
    Forall failedAttempt (attemptRuns ParseCIDR k ip w).1 ∧
    (k = fuel ∨
     (k < fuel)%nat ∧
     ∃ l w' t,
       tryAcquireLease ParseCIDR ip (attemptRuns ParseCIDR k ip w).2
       = ((l, None), w', t)).
Proof.
  revert w. induction fuel as [|fuel IH]; intros w.
  - exists O. split; [lia|]. split; [constructor|left; reflexivity].
  - destruct (tryAcquireLease ParseCIDR ip w) as [[[l e] w1] t] eqn:Htry.
    destruct e as [msg|].
    + destruct (IH w1) as (k & Hk & Hall & Hend).
      exists (S k). simpl. rewrite Htry.
      destruct (attemptRuns ParseCIDR k ip w1) as [rs w2] eqn:Hruns.
      simpl in *. split; [lia|]. split.
      * constructor; [discriminate|assumption].
      * destruct Hend as [->|[Hlt Hok]]; [left; reflexivity|].
        right. split; [lia|exact Hok].
    + exists O. simpl. split; [lia|]. split; [constructor|].
      right. split; [lia|]. exists l, w1, t. exact Htry.
Qed.

Lemma acquireLoop_completes k fuel ip numErrs lease err w l w' t :
  (k < fuel)%nat →
  Z.of_nat k < AcquireSubnetLeaseAttempts c - numErrs →
  Forall failedAttempt (attemptRuns ParseCIDR k ip w).1 →
  tryAcquireLease ParseCIDR ip (attemptRuns ParseCIDR k ip w).2
  = ((l, None), w', t) →
  acquireLoop ParseCIDR c fuel ip numErrs lease err w
  = ((l, None), w',
     List.concat (map snd (attemptRuns ParseCIDR k ip w).1)
     ++ t ++ [CallLogInfo "lease-acquired" [("lease", LLease l)]]).
Proof.
  revert fuel numErrs lease err w.
  induction k as [|k IH]; intros fuel numErrs lease err w Hfuel Hlt Hall Hok;
    (destruct fuel as [|fuel]; [lia|]); simpl in *;
    (destruct (numErrs <? AcquireSubnetLeaseAttempts c) eqn:Hguard; [|lia]);
    unfold_prog.
  - rewrite Hok. reflexivity.
  - destruct (tryAcquireLease ParseCIDR ip w) as [[[l1 e1] w1] t1]. simpl.
    specialize (IH fuel (numErrs + 1) l1 e1 w1).
    destruct (attemptRuns ParseCIDR k ip w1) as [rs w2]. simpl in *.
    inversion Hall as [|? ? Hr Hrs]; subst.
    destruct e1 as [msg|]; [|exfalso; apply Hr; reflexivity].
    rewrite IH by (assumption || lia).
    rewrite <- app_assoc. reflexivity.
Qed.

(** Failed attempts insert nothing, return no lease, and call the store,
    the pool and the generator only. *)
Lemma failed_attempts_history k ip w :
  Forall failedAttempt (attemptRuns ParseCIDR k ip w).1 →
  let tr := List.concat (map snd (attemptRuns ParseCIDR k ip w).1) in
  List.filter isInserted tr = [] ∧
  forallb attemptCall tr = true ∧
  List.length (List.filter isAll tr) = k ∧
  Forall (λ r, r.1.1 = None) (attemptRuns ParseCIDR k ip w).1.
Proof.
  revert w. induction k as [|k IH]; intros w Hall; simpl in *.
  - repeat split. constructor.
  - pose proof (tryAcquireLease_history ip w) as Hhist.
    destruct (tryAcquireLease_shape ParseCIDR ip w)
      as (ls & e & w0 & rest & _ & Htr & HnoAll & _ & _).
    destruct (tryAcquireLease ParseCIDR ip w) as [[[l e1] w1] t].
    specialize (IH w1).
    destruct (attemptRuns ParseCIDR k ip w1) as [rs w2]. simpl in *.
    inversion Hall as [|? ? Hr Hrs]; subst.
    destruct (IH Hrs) as (Hins & Hcalls & Hcount & Hnil).
    destruct Hhist as [Hcall Hres].
    destruct e1 as [msg|]; [|exfalso; apply Hr; reflexivity].
    destruct Hres as [-> Hnone]. simpl in *.
    rewrite !List.filter_app, forallb_app, Hins, Hcalls, Hcall, Hnone,
      HnoAll.
    simpl. rewrite Hcount.
    repeat split. constructor; [reflexivity|assumption].
Qed.

Lemma last_Forall {A : Type} (P : A → Prop) (l : list A) (d : A) :
  Forall P l → P d → P (List.last l d).
Proof.
  intros Hl. revert d. induction Hl as [|a l Ha Hl IH]; intros d Hd;
    [exact Hd|].
  rewrite last_cons_default. apply IH. exact Ha.
Qed.

Lemma last_Forall_nonempty {A : Type} (P : A → Prop) (l : list A) (d : A) :
  l ≠ [] → Forall P l → P (List.last l d).
Proof.
  intros Hne Hl. destruct l as [|a l]; [congruence|].
  inversion Hl; subst. rewrite last_cons_default.
  apply last_Forall; assumption.
Qed.

Lemma forallb_attempt_acquire tr :
  forallb attemptCall tr = true → forallb acquireCall tr = true.
Proof.
  intros H. rewrite forallb_forall in *. intros e He.
  unfold acquireCall. rewrite (H e He). reflexivity.
Qed.

(** The three ways [AcquireSubnetLease] can go: renewal; after [k]
    failed attempts a successful one, within the bound; or all
    max(0, bound) attempts failed. *)
Lemma AcquireSubnetLease_outcome ip w :
  ∃ l0 e0 w1,
    LeaseForUnderlayIP ip w = ((l0, e0), w1) ∧
    ((∃ l, l0 = Some l ∧
        AcquireSubnetLease ParseCIDR c ip w
        = ((Some l, None), w1,
           [CallLeaseForUnderlayIP ip (Some l) e0;
            CallLogInfo "lease-renewed" [("lease", LLease (Some l))]]))
     ∨
     (l0 = None ∧
      ∃ k,
        Forall failedAttempt (attemptRuns ParseCIDR k ip w1).1 ∧
        ((Z.of_nat k < AcquireSubnetLeaseAttempts c ∧
          ∃ l w' t,
            tryAcquireLease ParseCIDR ip (attemptRuns ParseCIDR k ip w1).2
            = ((l, None), w', t) ∧
            AcquireSubnetLease ParseCIDR c ip w
            = ((l, None), w',
               CallLeaseForUnderlayIP ip None e0
               :: List.concat (map snd (attemptRuns ParseCIDR k ip w1).1)
               ++ t ++ [CallLogInfo "lease-acquired" [("lease", LLease l)]]))
         ∨
         (Z.of_nat k = Z.max 0 (AcquireSubnetLeaseAttempts c) ∧
          AcquireSubnetLease ParseCIDR c ip w
          = (List.last (map fst (attemptRuns ParseCIDR k ip w1).1) (None, e0),
             (attemptRuns ParseCIDR k ip w1).2,
             CallLeaseForUnderlayIP ip None e0
             :: List.concat (map snd (attemptRuns ParseCIDR k ip w1).1)))))).
Proof.
  destruct (LeaseForUnderlayIP ip w) as [[l0 e0] w1] eqn:Hlookup.
  exists l0, e0, w1. split; [reflexivity|].
  destruct l0 as [l|].
  - left. exists l. split; [reflexivity|].
    unfold AcquireSubnetLease. unfold_prog. rewrite Hlookup. reflexivity.
  - right. split; [reflexivity|].
    destruct (attemptRuns_first_success
                (Z.to_nat (AcquireSubnetLeaseAttempts c)) ip w1)
      as (k & Hk & Hall & Hend).
    exists k. split; [exact Hall|].
    destruct Hend as [->|[Hlt (l & w' & t & Hok)]].
    + right. split; [lia|].
      unfold AcquireSubnetLease. unfold_prog. rewrite Hlookup. simpl.
      rewrite acquireLoop_exhausted; [reflexivity|f_equal; lia|exact Hall].
    + left. split; [lia|]. exists l, w', t. split; [exact Hok|].
      unfold AcquireSubnetLease. unfold_prog. rewrite Hlookup. simpl.
      rewrite (acquireLoop_completes k _ ip 0 None e0 w1 l w' t);
        (reflexivity || assumption || lia).
Qed.

(** X2. [AcquireSubnetLease] never returns a lease together with an
    error; and when the bound of attempts is positive it never returns
    neither: the caller gets exactly one of the two. *)
Theorem AcquireSubnetLease_lease_xor_error ip w :
  let r := (AcquireSubnetLease ParseCIDR c ip w).1.1 in
  (r.1 ≠ None → r.2 = None) ∧
  (0 < AcquireSubnetLeaseAttempts c → r.1 = None → r.2 ≠ None).
Proof.
  destruct (AcquireSubnetLease_outcome ip w)
    as (l0 & e0 & w1 & _ & [(l & _ & Hrun)|(_ & k & Hall & Hcase)]).
  - rewrite Hrun. simpl. split; [reflexivity|discriminate].
  - destruct Hcase as [(Hlt & l & w' & t & Hok & Hrun)|(Hk & Hrun)];
      rewrite Hrun; simpl.
    + split; [reflexivity|]. intros _ Hnil. subst l.
      pose proof (tryAcquireLease_history ip
                    (attemptRuns ParseCIDR k ip w1).2) as [_ Hres].
      rewrite Hok in Hres. simpl in Hres.
      destruct Hres as (lease & _ & Hsome & _). discriminate.
    + destruct (failed_attempts_history k ip w1 Hall) as (_ & _ & _ & Hnil).
      split.
      * intros Hsome. exfalso. apply Hsome.
        apply (last_Forall (λ x, x.1 = None)); [|reflexivity].
        apply Forall_map. exact Hnil.
      * intros Hpos _.
        apply (last_Forall_nonempty (λ x, x.2 ≠ None)).
        -- pose proof (attemptRuns_length ParseCIDR k ip w1) as Hlen.
           intros Hempty. apply map_eq_nil in Hempty.
           rewrite Hempty in Hlen. simpl in Hlen. lia.
        -- apply Forall_map. exact Hall.
Qed.

(** X3. With no lease found, if the first [k] attempts fail and the next
    one succeeds, and [k] is below the bound, [AcquireSubnetLease]
    returns the lease of that attempt and no error; the errors of the
    attempts before it are dropped, and the history is the lookup, the
    attempts in order, and one "lease-acquired" line. *)
Theorem AcquireSubnetLease_retries ip w e0 w1 k l w' t :
  LeaseForUnderlayIP ip w = ((None, e0), w1) →
  Z.of_nat k < AcquireSubnetLeaseAttempts c →
  Forall failedAttempt (attemptRuns ParseCIDR k ip w1).1 →
  tryAcquireLease ParseCIDR ip (attemptRuns ParseCIDR k ip w1).2
  = ((l, None), w', t) →
  AcquireSubnetLease ParseCIDR c ip w
  = ((l, None), w',
     CallLeaseForUnderlayIP ip None e0
     :: List.concat (map snd (attemptRuns ParseCIDR k ip w1).1)
     ++ t ++ [CallLogInfo "lease-acquired" [("lease", LLease l)]]).
Proof.
  intros Hlookup Hlt Hall Hok.
  unfold AcquireSubnetLease. unfold_prog. rewrite Hlookup. simpl.
  rewrite (acquireLoop_completes k _ ip 0 None e0 w1 l w' t);
    (reflexivity || assumption || lia).
Qed.

(** X4. Whatever the collaborators do, [AcquireSubnetLease] looks the
    host up exactly once, first; after that it only lists, asks the
    pool, generates, inserts and logs: it never sleeps, deletes,
    migrates or looks up again; and it lists the leases, once per
    attempt, at most max(0, [AcquireSubnetLeaseAttempts]) times. *)
Theorem AcquireSubnetLease_calls ip w :
  ∃ l0 e0 w1 rest,
    LeaseForUnderlayIP ip w = ((l0, e0), w1) ∧
    (AcquireSubnetLease ParseCIDR c ip w).2
    = CallLeaseForUnderlayIP ip l0 e0 :: rest ∧
    forallb acquireCall rest = true ∧
    Z.of_nat (List.length (List.filter isAll rest))
    ≤ Z.max 0 (AcquireSubnetLeaseAttempts c).
Proof.
  destruct (AcquireSubnetLease_outcome ip w)
    as (l0 & e0 & w1 & Hlookup & [(l & -> & Hrun)|(-> & k & Hall & Hcase)]).
  - eexists _, e0, w1, _. split; [exact Hlookup|]. rewrite Hrun.
    split; [reflexivity|]. split; [reflexivity|]. apply Z.le_max_l.
  - destruct (failed_attempts_history k ip w1 Hall)
      as (_ & Hcalls & Hcount & _).
    destruct Hcase as [(Hlt & l & w' & t & Hok & Hrun)|(Hk & Hrun)].
    + eexists None, e0, w1, _. split; [exact Hlookup|]. rewrite Hrun.
      split; [reflexivity|].
      pose proof (tryAcquireLease_history ip
                    (attemptRuns ParseCIDR k ip w1).2) as [Hcall _].
      destruct (tryAcquireLease_shape ParseCIDR ip
                  (attemptRuns ParseCIDR k ip w1).2)
        as (ls & e & w0 & rest & _ & Htr & HnoAll & _ & _).
      rewrite Hok in Hcall, Htr. cbn [fst snd] in Hcall, Htr.
      split.
      * rewrite !forallb_app.
        rewrite (forallb_attempt_acquire _ Hcalls).
        rewrite (forallb_attempt_acquire _ Hcall). reflexivity.
      * rewrite !List.filter_app, !length_app, Hcount, Htr.
        cbn [List.filter isAll List.length]. rewrite HnoAll.
        cbn [List.length]. lia.
    + eexists None, e0, w1, _. split; [exact Hlookup|]. rewrite Hrun.
      split; [reflexivity|]. split.
      * apply forallb_attempt_acquire. exact Hcalls.
      * rewrite Hcount. lia.
Qed.

(** X5. Among the calls of [AcquireSubnetLease] at most one insert
    succeeds, and when one does, it is the insert of the lease that is
    returned, for the host that was asked for, and the last change made
    to the world.  When an error is returned, no insert has succeeded. *)
Theorem AcquireSubnetLease_inserts_at_most_once ip w :
  let run := AcquireSubnetLease ParseCIDR c ip w in
  (List.filter isInserted run.2 = [] ∨
   ∃ lease w3,
     List.filter isInserted run.2 = [CallAddEntry lease None] ∧
     run.1.1 = (Some lease, None) ∧
     controller.UnderlayIP lease = ip ∧
     AddEntry lease w3 = (None, run.1.2)) ∧
  (run.1.1.2 ≠ None → List.filter isInserted run.2 = []).
Proof.
  destruct (AcquireSubnetLease_outcome ip w)
    as (l0 & e0 & w1 & Hlookup & [(l & -> & Hrun)|(-> & k & Hall & Hcase)]).
  - rewrite Hrun. simpl. split; [left; reflexivity|reflexivity].
  - destruct (failed_attempts_history k ip w1 Hall) as (Hins & _ & _ & _).
    destruct Hcase as [(Hlt & l & w' & t & Hok & Hrun)|(Hk & Hrun)];
      rewrite Hrun; simpl.
    + pose proof (tryAcquireLease_history ip
                    (attemptRuns ParseCIDR k ip w1).2) as [_ Hres].
      rewrite Hok in Hres. simpl in Hres.
      destruct Hres as (lease & w3 & -> & Hip & Hadd & Hone).
      split; [|intros Hne; exfalso; apply Hne; reflexivity].
      right. exists lease, w3.
      rewrite !List.filter_app, Hins, Hone. simpl.
      repeat split; assumption.
    + split; [left; exact Hins|]. intros _. exact Hins.
Qed.

(** X9. Acquiring twice.  If a first call found no lease and acquired
    one, and the store finds by host what was inserted into it, then a
    second call for the same host returns the same lease through the
    lookup alone: it asks neither the pool nor the generator and inserts
    nothing. *)
Theorem AcquireSubnetLease_twice ip w e0 w0 l w1 tr :
  LeaseForUnderlayIP ip w = ((None, e0), w0) →
  AcquireSubnetLease ParseCIDR c ip w = ((Some l, None), w1, tr) →
  (∀ l' w3, AddEntry l' w3 = (None, w1) →
     ∃ w2, LeaseForUnderlayIP (controller.UnderlayIP l') w1
           = ((Some l', None), w2)) →
  ∃ w2,
    AcquireSubnetLease ParseCIDR c ip w1
    = ((Some l, None), w2,
       [CallLeaseForUnderlayIP ip (Some l) None;
        CallLogInfo "lease-renewed" [("lease", LLease (Some l))]]).
Proof.
  intros Hlookup Hrun Hlaw.
  destruct (AcquireSubnetLease_outcome ip w)
    as (l0 & e1 & w0' & Hlookup' & [(l' & -> & _)|(_ & k & Hall & Hcase)]);
    [congruence|].
  rewrite Hlookup in Hlookup'. injection Hlookup' as <- <- <-.
  destruct Hcase as [(Hlt & l' & w' & t & Hok & Hrun')|(Hk & Hrun')];
    rewrite Hrun in Hrun'.
  - injection Hrun' as <- <- ->.
    pose proof (tryAcquireLease_history ip
                  (attemptRuns ParseCIDR k ip w0).2) as [_ Hres].
    rewrite Hok in Hres. cbn [fst snd] in Hres.
    destruct Hres as (lease & w3 & Hsome & Hip & Hadd & _).
    injection Hsome as ->.
    destruct (Hlaw lease w3 Hadd) as [w2 Hfound]. rewrite Hip in Hfound.
    exists w2. unfold AcquireSubnetLease. unfold_prog.
    rewrite Hfound. reflexivity.
  - exfalso. injection Hrun' as Hlast _ _.
    destruct (failed_attempts_history k ip w0 Hall) as (_ & _ & _ & Hnil).
    assert (Hl : (List.last (map fst (attemptRuns ParseCIDR k ip w0).1)
                    (None, e0)).1 = None).
    { apply (last_Forall (λ x, x.1 = None)); [|reflexivity].
      apply Forall_map. exact Hnil. }
    rewrite <- Hlast in Hl. discriminate.
Qed.

End LeaseControllerOutcomes.

(** ** The constructor *)

Section NewLeaseControllerFacts.
Context {W DBConfig : Type}.
Context `{DB : !databaseHandler W} `{Conn : !connectionPool W DBConfig}.

(** X7. Whatever the database does, [NewLeaseController] returns a
    controller exactly when it returns no error; the controller it
    returns has 5 migration attempts one second apart, 10 acquisition
    attempts and the configured underlay address, and its table was
    migrated by the last call in the history; [Migrate] is called at
    most 5 times; and when the connection is refused the error names the
    connection and no call is made at all. *)
Theorem NewLeaseController_outcome (cfg : config.Config DBConfig) w :
  let run := NewLeaseController cfg w in
  (run.1.1.1 ≠ None ↔ run.1.1.2 = None) ∧
  (∀ lc, run.1.1.1 = Some lc →
     lc = {| MaxMigrationAttempts := 5;
             MigrationAttemptSleepDuration := 1000000000;
             AcquireSubnetLeaseAttempts := 10;
             UnderlayIP := config.UnderlayIP cfg |} ∧
     ∃ n tr0, run.2 = tr0 ++ migrationComplete n) ∧
  Z.of_nat (List.length (List.filter isMigrate run.2)) ≤ 5 ∧
  (∀ e w1, GetConnectionPool (config.Database cfg) w = (Some e, w1) →
     run = ((None, Some ("connecting to database: " +:+ e)), w1, [])).
Proof.
  unfold NewLeaseController, getConnectionPool. unfold_prog.
  destruct (GetConnectionPool (config.Database cfg) w) as [[e|] w1].
  { cbn [fst snd]. split; [split; [intros H; exfalso; apply H; reflexivity
                                  |discriminate]|].
    split; [discriminate|]. split; [cbn; lia|].
    intros e' w1' H. injection H as <- <-. reflexivity. }
  set (lc := {| MaxMigrationAttempts := 5;
                MigrationAttemptSleepDuration := Second;
                AcquireSubnetLeaseAttempts := 10;
                UnderlayIP := config.UnderlayIP cfg |}).
  destruct (migrateRuns_first_success 5 w1) as (k & Hk & Hall & Hend).
  assert (Hrun : (k = 5%nat ∧
            TryMigrations lc w1
            = (Errorf "creating table: "
                 (List.last (map snd (migrateRuns k w1).1) None),
               (migrateRuns k w1).2,
               flat_map (failedMigration lc) (migrateRuns k w1).1))
          ∨ ((k < 5)%nat ∧ ∃ n w',
            TryMigrations lc w1
            = (None, w',
               flat_map (failedMigration lc) (migrateRuns k w1).1
               ++ migrationComplete n))).
  { destruct Hend as [->|[Hlt (n & w' & Hok)]].
    - left. split; [reflexivity|]. unfold TryMigrations.
      apply migrationLoop_exhausted; [reflexivity|exact Hall].
    - right. split; [exact Hlt|]. exists n, w'. unfold TryMigrations.
      apply migrationLoop_completes; (assumption || (cbn; lia)). }
  pose proof (migrateRuns_length k w1) as Hlen.
  destruct Hrun as [[-> Hrun]|[Hlt (n & w' & Hrun)]]; rewrite Hrun;
    cbn [fst snd Errorf].
  - split; [split; [intros H; exfalso; apply H; reflexivity|discriminate]|].
    split; [discriminate|]. split; [|discriminate].
    rewrite app_nil_l, app_nil_r, failedMigration_count, Hlen. lia.
  - split; [split; [reflexivity|discriminate]|].
    split; [|split; [|discriminate]].
    + intros lc' H. injection H as <-. split; [reflexivity|].
      exists n, (flat_map (failedMigration lc) (migrateRuns k w1).1).
      rewrite app_nil_l, app_nil_r. reflexivity.
    + rewrite app_nil_l, app_nil_r, List.filter_app, length_app,
        failedMigration_count, Hlen.
      cbn. lia.
Qed.

(** X8. Once the connection is made, [NewLeaseController] retries the
    migration as [TryMigrations] does with a bound of 5 and a sleep of
    one second: after fewer than 5 failures and a success it returns the
    controller; after 5 failures it returns no controller and the error
    "migrating database: creating table: " followed by the text of the
    fifth failure. *)
Theorem NewLeaseController_migrations (cfg : config.Config DBConfig) w w1 :
  GetConnectionPool (config.Database cfg) w = (None, w1) →
  let lc := {| MaxMigrationAttempts := 5;
               MigrationAttemptSleepDuration := 1000000000;
               AcquireSubnetLeaseAttempts := 10;
               UnderlayIP := config.UnderlayIP cfg |} in
  (∀ M n w',
     (M < 5)%nat →
     Forall failed (migrateRuns M w1).1 →
     Migrate (migrateRuns M w1).2 = ((n, None), w') →
     NewLeaseController cfg w
     = ((Some lc, None), w',
        flat_map (failedMigration lc) (migrateRuns M w1).1
        ++ migrationComplete n))
  ∧
  (Forall failed (migrateRuns 5 w1).1 →
   ∃ init n msg,
     (migrateRuns 5 w1).1 = init ++ [(n, Some msg)] ∧
     NewLeaseController cfg w
     = ((None, Some ("migrating database: creating table: " +:+ msg)),
        (migrateRuns 5 w1).2,
        flat_map (failedMigration lc) (migrateRuns 5 w1).1)).
Proof.
  intros Hconn lc. split.
  - intros M n w' HM Hall Hok.
    unfold NewLeaseController, getConnectionPool. unfold_prog.
    rewrite Hconn. fold lc. unfold TryMigrations.
    rewrite (migrationLoop_completes lc M _ 0 None w1 n w');
      [|cbn; lia|cbn; lia|assumption|assumption].
    cbn [fst snd]. rewrite app_nil_r. reflexivity.
  - intros Hall.
    assert (Hne : (migrateRuns 5 w1).1 ≠ []).
    { intros Hnil. pose proof (migrateRuns_length 5 w1) as Hlen.
      rewrite Hnil in Hlen. discriminate. }
    destruct (last_snoc_default (0, None) _ Hne)
      as (init & [n e] & Hrs & Hlast).
    assert (He : failed (n, e)).
    { rewrite Forall_forall in Hall. apply Hall. rewrite Hrs.
      apply list_elem_of_In, in_app_iff. right. left. reflexivity. }
    destruct e as [msg|]; [|exfalso; apply He; reflexivity].
    exists init, n, msg. split; [exact Hrs|].
    unfold NewLeaseController, getConnectionPool. unfold_prog.
    rewrite Hconn. fold lc. unfold TryMigrations.
    rewrite (migrationLoop_exhausted lc (Z.to_nat 5) 0 None w1);
      [|reflexivity|exact Hall].
    change (Z.to_nat 5) with 5%nat.
    cbn [fst snd Errorf]. rewrite app_nil_r.
    rewrite Hrs at 1. rewrite map_app. cbn [map snd].
    rewrite last_last. reflexivity.
Qed.

End NewLeaseControllerFacts.

(** ** Concrete runs for the further properties *)

Lemma tryAcquireLease_failure_witness :
  tryAcquireLease fakes.ParseCIDR "10.244.5.6" fullWorld
  = ((None, Some "get available subnet: no subnets available"), fullWorld,
     [CallAll (fakes.rows fullWorld) None;
      CallGetAvailable ["10.255.1.0/24"; "10.255.2.0/24"; "10.255.3.0/24"]
        "" (Some "no subnets available")])
  ∧ ∃ leases e,
      All fullWorld = ((leases, None), fullWorld) ∧
      GetAvailable (map controller.OverlaySubnet leases) fullWorld
      = (("", Some e), fullWorld) ∧
      "get available subnet: no subnets available"
      = "get available subnet: " +:+ e.
Proof.
  assert (Hrun : tryAcquireLease fakes.ParseCIDR "10.244.5.6" fullWorld
    = ((None, Some "get available subnet: no subnets available"), fullWorld,
       [CallAll (fakes.rows fullWorld) None;
        CallGetAvailable ["10.255.1.0/24"; "10.255.2.0/24"; "10.255.3.0/24"]
          "" (Some "no subnets available")])) by reflexivity.
  split; [exact Hrun|].
  destruct (tryAcquireLease_failure fakes.ParseCIDR "10.244.5.6" fullWorld
              _ _ _ _ Hrun) as (_ & leases & e & Hcase).
  exists (fakes.rows fullWorld), "no subnets available".
  repeat split.
Defined.

Lemma AcquireSubnetLease_lease_xor_error_witness :
  0 < AcquireSubnetLeaseAttempts (fakes.config 3)
  ∧ (AcquireSubnetLease fakes.ParseCIDR (fakes.config 3) "10.244.5.6"
       fullWorld).1.1.1 = None
  ∧ (AcquireSubnetLease fakes.ParseCIDR (fakes.config 3) "10.244.5.6"
       fullWorld).1.1.2 ≠ None.
Proof.
  assert (Hpos : 0 < AcquireSubnetLeaseAttempts (fakes.config 3))
    by (simpl; lia).
  assert (Hnil : (AcquireSubnetLease fakes.ParseCIDR (fakes.config 3)
                    "10.244.5.6" fullWorld).1.1.1 = None) by reflexivity.
  split; [exact Hpos|]. split; [exact Hnil|].
  exact (proj2 (AcquireSubnetLease_lease_xor_error fakes.ParseCIDR
                  (fakes.config 3) "10.244.5.6" fullWorld) Hpos Hnil).
Defined.

Lemma AcquireSubnetLease_retries_witness :
  let lost := {| controller.UnderlayIP := "10.244.5.6";
                 controller.OverlaySubnet := "10.255.1.0/24";
                 controller.OverlayHardwareAddr := "ee:ee:0a:ff:01:00" |} in
  let won := {| controller.UnderlayIP := "10.244.5.6";
                controller.OverlaySubnet := "10.255.2.0/24";
                controller.OverlayHardwareAddr := "ee:ee:0a:ff:02:00" |} in
  LeaseForUnderlayIP "10.244.5.6" racyWorld = ((None, None), racyWorld)
  ∧ Z.of_nat 1 < AcquireSubnetLeaseAttempts (fakes.config 10)
  ∧ (attemptRuns fakes.ParseCIDR 1 "10.244.5.6" racyWorld).1
    = [((None, Some "adding lease entry: duplicate entry"),
        [CallAll [] None;
         CallGetAvailable [] "10.255.1.0/24" None;
         CallGenerateForVTEP [10; 255; 1; 0] [238; 238; 10; 255; 1; 0] None;
         CallAddEntry lost (Some "duplicate entry")])]
  ∧ ∃ w' tr,
      AcquireSubnetLease fakes.ParseCIDR (fakes.config 10) "10.244.5.6"
        racyWorld
      = ((Some won, None), w', tr)
      ∧ List.filter isInserted tr = [CallAddEntry won None].
Proof.
  intros lost won.
  assert (Hlookup : LeaseForUnderlayIP "10.244.5.6" racyWorld
                    = ((None, None), racyWorld)) by reflexivity.
  assert (Hlt : Z.of_nat 1 < AcquireSubnetLeaseAttempts (fakes.config 10))
    by (simpl; lia).
  assert (Hall : Forall failedAttempt
            (attemptRuns fakes.ParseCIDR 1 "10.244.5.6" racyWorld).1)
    by (vm_compute; repeat constructor; discriminate).
  split; [exact Hlookup|]. split; [exact Hlt|]. split; [reflexivity|].
  assert (Hok : tryAcquireLease fakes.ParseCIDR "10.244.5.6"
                  (attemptRuns fakes.ParseCIDR 1 "10.244.5.6" racyWorld).2
                = ((Some won, None),
                   (tryAcquireLease fakes.ParseCIDR "10.244.5.6"
                      (attemptRuns fakes.ParseCIDR 1 "10.244.5.6"
                         racyWorld).2).1.2,
                   (tryAcquireLease fakes.ParseCIDR "10.244.5.6"
                      (attemptRuns fakes.ParseCIDR 1 "10.244.5.6"
                         racyWorld).2).2))
    by (vm_compute; reflexivity).
  pose proof (AcquireSubnetLease_retries fakes.ParseCIDR (fakes.config 10)
                "10.244.5.6" racyWorld None racyWorld 1 (Some won) _ _
                Hlookup Hlt Hall Hok) as Hrun.
  eexists _, _. split; [exact Hrun|]. vm_compute. reflexivity.
Defined.

Lemma AcquireSubnetLease_twice_witness :
  let l := {| controller.UnderlayIP := "10.244.5.6";
              controller.OverlaySubnet := "10.255.1.0/24";
              controller.OverlayHardwareAddr := "ee:ee:0a:ff:01:00" |} in
  let w1 := fakes.setRows fakes.emptyWorld [l] in
  LeaseForUnderlayIP "10.244.5.6" fakes.emptyWorld
  = ((None, None), fakes.emptyWorld)
  ∧ (AcquireSubnetLease fakes.ParseCIDR (fakes.config 10) "10.244.5.6"
       fakes.emptyWorld).1 = ((Some l, None), w1)
  ∧ (∀ l' w3, AddEntry l' w3 = (None, w1) →
       ∃ w2, LeaseForUnderlayIP (controller.UnderlayIP l') w1
             = ((Some l', None), w2))
  ∧ ∃ w2,
      AcquireSubnetLease fakes.ParseCIDR (fakes.config 10) "10.244.5.6" w1
      = ((Some l, None), w2,
         [CallLeaseForUnderlayIP "10.244.5.6" (Some l) None;
          CallLogInfo "lease-renewed" [("lease", LLease (Some l))]]).
Proof.
  intros l w1.
  assert (Hlookup : LeaseForUnderlayIP "10.244.5.6" fakes.emptyWorld
                    = ((None, None), fakes.emptyWorld)) by reflexivity.
  assert (Hrun : AcquireSubnetLease fakes.ParseCIDR (fakes.config 10)
                   "10.244.5.6" fakes.emptyWorld
                 = ((Some l, None), w1,
                    (AcquireSubnetLease fakes.ParseCIDR (fakes.config 10)
                       "10.244.5.6" fakes.emptyWorld).2)) by reflexivity.
  assert (Hlaw : ∀ l' w3, AddEntry l' w3 = (None, w1) →
            ∃ w2, LeaseForUnderlayIP (controller.UnderlayIP l') w1
                  = ((Some l', None), w2)).
  { intros l' w3 Hadd. simpl in Hadd.
    destruct (existsb (fakes.clashes l') (fakes.rows w3)); [discriminate|].
    injection Hadd as Hadd.
    destruct (fakes.rows w3) as [|a rest]; simpl in Hadd.
    - injection Hadd as ->. exists w1. reflexivity.
    - injection Hadd as _ Hrest. destruct rest; discriminate. }
  split; [exact Hlookup|]. split; [reflexivity|]. split; [exact Hlaw|].
  exact (AcquireSubnetLease_twice fakes.ParseCIDR (fakes.config 10)
           "10.244.5.6" fakes.emptyWorld None fakes.emptyWorld l w1 _
           Hlookup Hrun Hlaw).
Defined.

Lemma NewLeaseController_migrations_witness :
  GetConnectionPool (config.Database faults.cfg) flakyWorld = (None, flakyWorld)
  ∧ GetConnectionPool (config.Database faults.cfg) downWorld = (None, downWorld)
  ∧ Forall failed (migrateRuns 5 downWorld).1
  ∧ (NewLeaseController faults.cfg flakyWorld).1.1
    = (Some {| MaxMigrationAttempts := 5;
               MigrationAttemptSleepDuration := 1000000000;
               AcquireSubnetLeaseAttempts := 10;
               UnderlayIP := "10.244.5.6" |}, None)
  ∧ ∃ msg,
      NewLeaseController faults.cfg downWorld
      = ((None, Some ("migrating database: creating table: " +:+ msg)),
         downWorld,
         [CallMigrate 0 (Some "connection refused"); CallSleep 1000000000;
          CallMigrate 0 (Some "connection refused"); CallSleep 1000000000;
          CallMigrate 0 (Some "connection refused"); CallSleep 1000000000;
          CallMigrate 0 (Some "connection refused"); CallSleep 1000000000;
          CallMigrate 0 (Some "connection refused"); CallSleep 1000000000]).
Proof.
  assert (Hflaky : GetConnectionPool (config.Database faults.cfg) flakyWorld
                   = (None, flakyWorld)) by reflexivity.
  assert (Hdown : GetConnectionPool (config.Database faults.cfg) downWorld
                  = (None, downWorld)) by reflexivity.
  assert (Hall : Forall failed (migrateRuns 5 downWorld).1)
    by (vm_compute; repeat constructor; discriminate).
  split; [exact Hflaky|]. split; [exact Hdown|]. split; [exact Hall|].
  split.
  - assert (H1 : Forall failed (migrateRuns 1 flakyWorld).1)
      by (vm_compute; repeat constructor; discriminate).
    assert (Hok : Migrate (migrateRuns 1 flakyWorld).2
                  = ((2, None), (Migrate (migrateRuns 1 flakyWorld).2).2))
      by reflexivity.
    rewrite (proj1 (NewLeaseController_migrations faults.cfg flakyWorld
                      flakyWorld Hflaky) 1%nat 2 _ ltac:(lia) H1 Hok).
    reflexivity.
  - destruct (proj2 (NewLeaseController_migrations faults.cfg downWorld
                       downWorld Hdown) Hall)
      as (init & n & msg & _ & Hrun).
    exists msg. exact Hrun.
Defined.
